(** * parse-vdv-chipcard: a shallow embedding of the VDV-KA card decoder

    The Python script reads BER-TLV blocks from a contactless card with
    chained GET DATA commands, parses them into nested lists
    [[tag, length, value]] and pretty-prints them, decoding the leaves it
    has a field definition for.

    Python values are embedded as follows.
    - Integers (bytes, tags, lengths, status bytes) are [Z].
    - A Python list that holds either integers or nodes is [list elem].
    - An iterator over a list of integers is the list of the items that
      are still to come; [next] pops the head or raises [StopIteration].
    - A call either returns, raises one of the exceptions of [exn], or,
      for the two [while True] loops, runs out of the fuel it was given.
    - [print] appends a line to the text printed so far. *)

From Stdlib Require Import ZArith List String Ascii Bool Lia.
From Stdlib Require Import DecimalString HexadecimalString.
Import ListNotations.
Local Open Scope Z_scope.

(** ** Exceptions and outcomes *)

Inductive exn : Set :=
| StopIteration
| KeyError
| AttributeError
| TypeError
| IndexError
| ValueError.

Inductive outcome (A : Type) : Type :=
| Ok (a : A)
| Raise (e : exn)
| NoFuel.

Arguments Ok {A} a.
Arguments Raise {A} e.
Arguments NoFuel {A}.

Definition bind {A B : Type} (c : outcome A) (k : A -> outcome B) : outcome B :=
  match c with
  | Ok a => k a
  | Raise e => Raise e
  | NoFuel => NoFuel
  end.

Declare Scope py_scope.
Delimit Scope py_scope with py.
Notation "x <- c ;; k" := (bind c (fun x => k))
  (at level 61, c at next level, right associativity) : py_scope.
Notation "' p <- c ;; k" := (bind c (fun x => let 'p := x in k))
  (at level 61, p pattern, c at next level, right associativity) : py_scope.
Local Open Scope py_scope.

(** ** The tag registry: [class Tag(IntEnum)] *)

Module Tag.
Definition APPLIKATIONSVERZEICHNIS : Z := 0xE0.
Definition APPLIKATIONSDATEN : Z := 0xE1.
Definition VERZ_APPLIKATIONSDATEN : Z := 0xE2.
Definition APPLIKATIONSDATEN_DYNAMISCH : Z := 0x80.
Definition APPLIKATIONSDATEN_STATISCH : Z := 0x81.
Definition APPLIKATIONSDATEN_SEPARATE_DATEN : Z := 0xEE.
Definition SCHLUESSELVERSIONEN : Z := 0x91.
Definition AUSGABETRANSAKTIONSKENNUNG : Z := 0x99.
Definition APPLIKATIONSLOGBUCH : Z := 0xE3.
Definition VERZ_APPLIKATIONSLOGBUCH : Z := 0xE4.
Definition APPLIKATIONSLOGBUCH_STATISCH : Z := 0x82.
Definition APPLIKATIONSLOGBUCH_SEPARATE_DATEN : Z := 0xE5.
Definition KUNDENDATEN : Z := 0xE6.
Definition VERZ_KUNDENDATEN : Z := 0xE7.
Definition BERECHTIGUNG : Z := 0xE8.
Definition VERZ_BERECHTIGUNG : Z := 0xE9.
Definition BERECHTIGUNG_STATISCH : Z := 0x83.
Definition BERECHTIGUNG_DYNAMISCH : Z := 0x84.
Definition BERECHTIGUNG_SEPARATE_DATEN : Z := 0xEA.
Definition BERECHTIGUNG_PRODUKTSPEZIFISCH : Z := 0x85.
Definition SCHLUESSELREGISTER : Z := 0xEB.
Definition VERZ_SCHLUESSELREGISTER : Z := 0xEC.
Definition SCHLUESSELREGISTER_STATISCH : Z := 0x86.
Definition SCHLUESSELREGISTER_DYNAMISCH : Z := 0x87.
Definition SCHLUESSELREGISTER_SEPARATE_DATEN : Z := 0xED.
Definition ALLGEMEINE_TRANSAKTIONSDATEN : Z := 0x89.
Definition AUSGABETRANSAKTION_APPLIKATION : Z := 0xF7.
Definition STATUSAENDERUNG_APPLIKATION : Z := 0x8E.
Definition AUSGABE_APPLIKATION_DATEN : Z := 0x9B.
Definition AUSGABETRANSAKTION_BERECHTIGUNG : Z := 0xF6.
Definition TRANSAKTION_PRODUKTSPEZIFISCHER_TEIL : Z := 0x8A.
Definition STATUSAENDERUNG_BERECHTIGUNG : Z := 0x8D.
Definition AUSGABE_BERECHTIGUNG_DATEN : Z := 0x9A.
Definition FAHRTTRANSAKTION : Z := 0xF1.
Definition ALLGEMEINE_FAHRTTRANSAKTIONSDATEN : Z := 0x8B.
Definition TLV_EFS_GRUNDLEGENDE_DATEN : Z := 0xDA.
Definition TLV_EFS_FAHRGAST : Z := 0xDB.
Definition TLV_EFS_LISTE_ORIG_GELTUNGSBEREICH : Z := 0xDC.
Definition ZEIGER : Z := 0xC0.
Definition LETZTE_TRANSAKTION : Z := 0xC3.
Definition INFOTEXT : Z := 0xC7.
Definition PRIORITAETEN : Z := 0x90.

(** The members in declaration order, with their names. *)
Definition members : list (string * Z) :=
  [ ("APPLIKATIONSVERZEICHNIS", APPLIKATIONSVERZEICHNIS);
    ("APPLIKATIONSDATEN", APPLIKATIONSDATEN);
    ("VERZ_APPLIKATIONSDATEN", VERZ_APPLIKATIONSDATEN);
    ("APPLIKATIONSDATEN_DYNAMISCH", APPLIKATIONSDATEN_DYNAMISCH);
    ("APPLIKATIONSDATEN_STATISCH", APPLIKATIONSDATEN_STATISCH);
    ("APPLIKATIONSDATEN_SEPARATE_DATEN", APPLIKATIONSDATEN_SEPARATE_DATEN);
    ("SCHLUESSELVERSIONEN", SCHLUESSELVERSIONEN);
    ("AUSGABETRANSAKTIONSKENNUNG", AUSGABETRANSAKTIONSKENNUNG);
    ("APPLIKATIONSLOGBUCH", APPLIKATIONSLOGBUCH);
    ("VERZ_APPLIKATIONSLOGBUCH", VERZ_APPLIKATIONSLOGBUCH);
    ("APPLIKATIONSLOGBUCH_STATISCH", APPLIKATIONSLOGBUCH_STATISCH);
    ("APPLIKATIONSLOGBUCH_SEPARATE_DATEN", APPLIKATIONSLOGBUCH_SEPARATE_DATEN);
    ("KUNDENDATEN", KUNDENDATEN);
    ("VERZ_KUNDENDATEN", VERZ_KUNDENDATEN);
    ("BERECHTIGUNG", BERECHTIGUNG);
    ("VERZ_BERECHTIGUNG", VERZ_BERECHTIGUNG);
    ("BERECHTIGUNG_STATISCH", BERECHTIGUNG_STATISCH);
    ("BERECHTIGUNG_DYNAMISCH", BERECHTIGUNG_DYNAMISCH);
    ("BERECHTIGUNG_SEPARATE_DATEN", BERECHTIGUNG_SEPARATE_DATEN);
    ("BERECHTIGUNG_PRODUKTSPEZIFISCH", BERECHTIGUNG_PRODUKTSPEZIFISCH);
    ("SCHLUESSELREGISTER", SCHLUESSELREGISTER);
    ("VERZ_SCHLUESSELREGISTER", VERZ_SCHLUESSELREGISTER);
    ("SCHLUESSELREGISTER_STATISCH", SCHLUESSELREGISTER_STATISCH);
    ("SCHLUESSELREGISTER_DYNAMISCH", SCHLUESSELREGISTER_DYNAMISCH);
    ("SCHLUESSELREGISTER_SEPARATE_DATEN", SCHLUESSELREGISTER_SEPARATE_DATEN);
    ("ALLGEMEINE_TRANSAKTIONSDATEN", ALLGEMEINE_TRANSAKTIONSDATEN);
    ("AUSGABETRANSAKTION_APPLIKATION", AUSGABETRANSAKTION_APPLIKATION);
    ("STATUSAENDERUNG_APPLIKATION", STATUSAENDERUNG_APPLIKATION);
    ("AUSGABE_APPLIKATION_DATEN", AUSGABE_APPLIKATION_DATEN);
    ("AUSGABETRANSAKTION_BERECHTIGUNG", AUSGABETRANSAKTION_BERECHTIGUNG);
    ("TRANSAKTION_PRODUKTSPEZIFISCHER_TEIL", TRANSAKTION_PRODUKTSPEZIFISCHER_TEIL);
    ("STATUSAENDERUNG_BERECHTIGUNG", STATUSAENDERUNG_BERECHTIGUNG);
    ("AUSGABE_BERECHTIGUNG_DATEN", AUSGABE_BERECHTIGUNG_DATEN);
    ("FAHRTTRANSAKTION", FAHRTTRANSAKTION);
    ("ALLGEMEINE_FAHRTTRANSAKTIONSDATEN", ALLGEMEINE_FAHRTTRANSAKTIONSDATEN);
    ("TLV_EFS_GRUNDLEGENDE_DATEN", TLV_EFS_GRUNDLEGENDE_DATEN);
    ("TLV_EFS_FAHRGAST", TLV_EFS_FAHRGAST);
    ("TLV_EFS_LISTE_ORIG_GELTUNGSBEREICH", TLV_EFS_LISTE_ORIG_GELTUNGSBEREICH);
    ("ZEIGER", ZEIGER);
    ("LETZTE_TRANSAKTION", LETZTE_TRANSAKTION);
    ("INFOTEXT", INFOTEXT);
    ("PRIORITAETEN", PRIORITAETEN) ]%string.

(** [Tag(tag).name]: the name of the member with that value;
    [ValueError] when there is none. *)
Definition name (tag : Z) : outcome string :=
  match find (fun m => snd m =? tag) members with
  | Some m => Ok (fst m)
  | None => Raise ValueError
  end.
End Tag.

(** ** Iterators over lists of integers *)

(** A computation that draws from the iterator [idata]: it gets the items
    still to come and gives back its result with the items left over. *)
Definition iter_m (A : Type) : Type := list Z -> outcome (A * list Z).

(** [next(idata)] *)
Definition next : iter_m Z :=
  fun idata =>
    match idata with
    | [] => Raise StopIteration
    | b :: rest => Ok (b, rest)
    end.

(** ** The BER-TLV tree *)

(** An item of a Python list of the parser: an integer (a raw byte of a
    leaf value) or a node [[tag, length, value]], itself a list. *)
#[local] Unset Elimination Schemes.
Inductive elem : Type :=
| EInt (n : Z)
| ENode (tag : Z) (length : Z) (value : list elem).
#[local] Set Elimination Schemes.

(** A leaf value [[b0, b1, ...]]. *)
Definition raw (bytes : list Z) : list elem := map EInt bytes.

Module BerTlv.

(** [for k in range(n): length = (length<<8) | next(idata)] *)
Fixpoint read_long_length (n : nat) (length : Z) : iter_m Z :=
  fun idata =>
    match n with
    | O => Ok (length, idata)
    | S n' =>
        '(b, rest) <- next idata ;;
        read_long_length n' (Z.lor (Z.shiftl length 8) b) rest
    end.

(** [[next(idata) for k in range(length)]]: [length] calls of [next],
    the first one on an exhausted iterator raises. *)
Fixpoint read_value (length : Z) (idata : list Z) {struct idata}
  : outcome (list Z * list Z) :=
  if length <=? 0 then Ok ([], idata)
  else
    match idata with
    | [] => Raise StopIteration
    | b :: rest =>
        '(value, rest') <- read_value (length - 1) rest ;;
        Ok (b :: value, rest')
    end.

(** The first statements of the loop body of [_parse_internal]: tag,
    length (short or long form) and value of the next element. *)
Definition read_tlv : iter_m (Z * Z * list Z) :=
  fun idata =>
    '(tag, i1) <- next idata ;;
    '(length, i2) <- next i1 ;;
    '(length, i3) <-
       (if Z.land length 0x80 =? 0 then Ok (length, i2)
        else read_long_length (Z.to_nat (Z.land length 0x7f)) 0 i2) ;;
    '(value, i4) <- read_value length i3 ;;
    Ok ((tag, length, value), i4).

(** The condition under which [_parse_internal] decodes a value
    recursively. *)
Definition is_constructed (tag : Z) (tlvefs_hack : bool) : bool :=
  (negb (Z.land tag 0x20 =? 0)
     && negb (tag =? Tag.SCHLUESSELREGISTER_SEPARATE_DATEN))
  || (tlvefs_hack && (tag =? Tag.BERECHTIGUNG_PRODUKTSPEZIFISCH)).

(** The [while True] loop of [_parse_internal] inside its [try]:
    [idata] is the iterator, [decoded] the list built so far.  A
    [StopIteration] from anywhere in the body, the recursive call
    included, is caught and [decoded] is returned.  One unit of fuel is
    spent per iteration and per recursive call. *)
Fixpoint parse_loop (fuel : nat) (tlvefs_hack : bool) (idata : list Z)
  (decoded : list elem) {struct fuel} : outcome (list elem) :=
  match fuel with
  | O => NoFuel
  | S fuel' =>
      match read_tlv idata with
      | NoFuel => NoFuel
      | Raise StopIteration => Ok decoded
      | Raise e => Raise e
      | Ok ((tag, length, value), idata') =>
          if is_constructed tag tlvefs_hack then
            match parse_loop fuel' tlvefs_hack value [] with
            | NoFuel => NoFuel
            | Raise StopIteration => Ok decoded
            | Raise e => Raise e
            | Ok inner =>
                parse_loop fuel' tlvefs_hack idata'
                  (decoded ++ [ENode tag length inner])
            end
          else
            parse_loop fuel' tlvefs_hack idata'
              (decoded ++ [ENode tag length (raw value)])
      end
  end.

(** [_parse_internal(data, tlvefs_hack)], with one more unit of fuel
    than [data] has bytes (enough, see [parse_loop_enough]). *)
Definition _parse_internal (data : list Z) (tlvefs_hack : bool)
  : outcome (list elem) :=
  parse_loop (S (List.length data)) tlvefs_hack data [].

(** [_is_nested_tlv(value)]:
    [len(value)>0 and isinstance(value[0], list)] *)
Definition _is_nested_tlv (value : list elem) : bool :=
  match value with
  | ENode _ _ _ :: _ => true
  | _ => false
  end.

(** The loop of [get_nth_child]; [count] counts the items with the tag
    seen so far.  Unpacking an item that is not a node is a
    [TypeError].  The result [None] is Python's [None]; a found child
    is [BerTlv(value)], whose [_bertlv] is [value] itself. *)
Fixpoint nth_child_loop (_bertlv : list elem) (tag : Z) (no count : nat)
  : outcome (option (list elem)) :=
  match _bertlv with
  | [] => Ok None
  | EInt _ :: _ => Raise TypeError
  | ENode temp _ value :: rest =>
      if temp =? tag then
        if (count =? no)%nat && _is_nested_tlv value then Ok (Some value)
        else nth_child_loop rest tag no (S count)
      else nth_child_loop rest tag no count
  end.

Definition get_nth_child (_bertlv : list elem) (tag : Z) (no : nat)
  : outcome (option (list elem)) :=
  nth_child_loop _bertlv tag no 0%nat.

Definition get_child (_bertlv : list elem) (tag : Z)
  : outcome (option (list elem)) :=
  get_nth_child _bertlv tag 0%nat.

(** The items of a list of integers; a node among them is a
    [TypeError] for whoever expects an integer. *)
Fixpoint ints (value : list elem) : outcome (list Z) :=
  match value with
  | [] => Ok []
  | EInt n :: rest => ns <- ints rest ;; Ok (n :: ns)
  | ENode _ _ _ :: _ => Raise TypeError
  end.

(** [bytes(value)] *)
Definition py_bytes (value : list elem) : outcome (list Z) :=
  ns <- ints value ;;
  if forallb (fun n => (0 <=? n) && (n <? 256)) ns then Ok ns
  else Raise ValueError.

Fixpoint get_value (_bertlv : list elem) (tag : Z)
  : outcome (option (list Z)) :=
  match _bertlv with
  | [] => Ok None
  | EInt _ :: _ => Raise TypeError
  | ENode temp _ value :: rest =>
      if (temp =? tag) && negb (_is_nested_tlv value) then
        bs <- py_bytes value ;; Ok (Some bs)
      else get_value rest tag
  end.

(** [BerTlv(data)] for a list of integers: [_bertlv] after [__init__]. *)
Definition init (data : list Z) : outcome (list elem) :=
  match data with
  | [] => Ok []
  | _ => _parse_internal data false
  end.

(** [BerTlv(data)] for any list: an empty list or a list that starts
    with a node is taken as it is, a list of integers is parsed. *)
Definition init_list (data : list elem) : outcome (list elem) :=
  match data with
  | [] => Ok []
  | ENode _ _ _ :: _ => Ok data
  | EInt _ :: _ => bytes <- ints data ;; _parse_internal bytes false
  end.

(** [self + x] for a [BerTlv] [x]: [BerTlv(self._bertlv + x._bertlv)]. *)
Definition __add__ (self x : list elem) : outcome (list elem) :=
  init_list (self ++ x).

(** [self + x] for a list of integers [x]: [temp = BerTlv(x)], then
    [self + temp]. *)
Definition __add__bytes (self : list elem) (x : list Z)
  : outcome (list elem) :=
  temp <- init x ;; __add__ self temp.

(** [list(t)] for a [BerTlv] [t]: the tags that [__iter__] yields. *)
Fixpoint __iter__ (_bertlv : list elem) : outcome (list Z) :=
  match _bertlv with
  | [] => Ok []
  | EInt _ :: _ => Raise TypeError
  | ENode tag _ _ :: rest => tags <- __iter__ rest ;; Ok (tag :: tags)
  end.

End BerTlv.

(** ** Text formatting *)

Module Fmt.
Local Open Scope string_scope.

Fixpoint zeros (n : nat) : string :=
  match n with O => "" | S n' => String "0" (zeros n') end.

(** Pad on the left with zeros to [width] characters. *)
Definition zfill (width : nat) (s : string) : string :=
  zeros (width - String.length s) ++ s.

Definition hex (n : Z) : string :=
  HexadecimalString.NilZero.string_of_uint (N.to_hex_uint (Z.to_N n)).

Definition dec (n : Z) : string :=
  DecimalString.NilZero.string_of_uint (N.to_uint (Z.to_N n)).

(** ["%0<width>x" % n] *)
Definition x0 (width : nat) (n : Z) : string :=
  if (n <? 0)%Z then "-" ++ zfill (width - 1) (hex (- n))
  else zfill width (hex n).

(** ["%0<width>d" % n] *)
Definition d0 (width : nat) (n : Z) : string :=
  if (n <? 0)%Z then "-" ++ zfill (width - 1) (dec (- n))
  else zfill width (dec n).

(** [str(n)] for an integer *)
Definition str_int (n : Z) : string :=
  if (n <? 0)%Z then "-" ++ dec (- n) else dec n.

(** [s * n] *)
Fixpoint repeat_str (s : string) (n : nat) : string :=
  match n with O => "" | S n' => s ++ repeat_str s n' end.

(** [s.split(sep)] for a one-character separator *)
Fixpoint split (sep : ascii) (s : string) : list string :=
  match s with
  | EmptyString => [EmptyString]
  | String c s' =>
      if Ascii.eqb c sep then EmptyString :: split sep s'
      else
        match split sep s' with
        | h :: t => String c h :: t
        | [] => [String c EmptyString]
        end
  end.
End Fmt.

(** ** The field decoder: [class VdvKaDecoder] *)

(** A decoded field value: an integer or a string. *)
Inductive pyval : Type :=
| VInt (n : Z)
| VStr (s : string).

(** [str(v)] *)
Definition py_str (v : pyval) : string :=
  match v with
  | VInt n => Fmt.str_int n
  | VStr s => s
  end.

(** An [OrderedDict] with string keys: the items in insertion order. *)
Definition odict : Type := list (string * pyval).

(** [result[name] = val]: a key that is there keeps its place. *)
Fixpoint odict_set (result : odict) (name : string) (val : pyval) : odict :=
  match result with
  | [] => [(name, val)]
  | (k, v) :: rest =>
      if String.eqb k name then (k, val) :: rest
      else (k, v) :: odict_set rest name val
  end.

Module VdvKaDecoder.
Local Open Scope string_scope.

(** Tags and field definitions: fields are separated by '|' and consist
    of a data type and a name. *)
Definition _fields : list (Z * string) :=
  [ (Tag.APPLIKATIONSDATEN_DYNAMISCH, "1:appStatus|1:appSynchronNummer");
    (Tag.APPLIKATIONSDATEN_STATISCH, "4:NmAppInstanznummer|2:app.organisationsNummer|1:appVersion|D:appGueltigkeitsbeginn|D:appGueltigkeitsende");
    (Tag.APPLIKATIONSLOGBUCH_STATISCH, "2:logApplikationSeqNummer");
    (Tag.INFOTEXT, "S:Infotext");
    (Tag.SCHLUESSELVERSIONEN, "1:Version KPV|1:Version KKVP|1:Version KAUTH");
    (Tag.AUSGABETRANSAKTIONSKENNUNG, "4:samSequenznummer|3:samNummer");
    (Tag.ALLGEMEINE_TRANSAKTIONSDATEN, "2:logApplikationSeqNummer|4:samSequenznummer|3:samNummer|2:logTransaktionsOperator_ID|1:terminalTyp|2:terminalNummer|2:transkation.organisationsNummer|D:logTransaktionsZeitpunkt|1:ortTyp|3:ortNummer|2:ort.organisationsNummer|1:logTransaktionsTyp");
    (Tag.AUSGABE_APPLIKATION_DATEN, "4:appProdLogSAMSeqNummer");
    (Tag.STATUSAENDERUNG_APPLIKATION, "2:appLogSeqNummer|4:NmAppInstanznummer|2:app.organisationsNummer|1:alterStatus|1:neuerStatus|1:appSynchronNummer|8:MACKONTROLLE|1:Version KKONTROLLE");
    (Tag.AUSGABE_BERECHTIGUNG_DATEN, "4:berProdLogSAMSeqNummer");
    (Tag.STATUSAENDERUNG_BERECHTIGUNG, "2:berLogSeqNummer|4:berechtigungNummer|2:ber.organisationsNummer|2:produktNummer|2:produkt.organisationsNummer|1:alterStatus|1:neuerStatus|1:berSynchronNummer|8:MACKONTROLLE|1:Version KKONTROLLE");
    (Tag.SCHLUESSELREGISTER_STATISCH, "2:|2:hersteller.organisationsNummer|B:NM-Spezifikations-version|4:Herstellerspezifische Versionsnummer");
    (Tag.BERECHTIGUNG_STATISCH, "4:berechtigungNummer|2:ber.organisationsNummer|2:produktNummer|2:produkt.organisationsNummer|2:prodKeyOrganisation_ID|D:berGueltigkeitsbeginn|D:berGueltigkeitsende");
    (Tag.BERECHTIGUNG_DYNAMISCH, "1:berStatus|1:berSynchronNummer");
    (Tag.TLV_EFS_FAHRGAST, "1:efsFahrgastGeschlecht|H:efsFahrgastGeburtsdatum|S:efsFahrgastName");
    (Tag.TLV_EFS_LISTE_ORIG_GELTUNGSBEREICH, "1:Typ|2:pv.organisationsNummer");
    (Tag.LETZTE_TRANSAKTION, "1:LogTransaktionsTyp|1:Zeiger");
    (Tag.ALLGEMEINE_FAHRTTRANSAKTIONSDATEN, "2:berLogSeqNummer|4:berechtigungNummer|2:ber.organisationsNummer|2:produktNummer|2:produkt.organisationsNummer|2:Linie_ID.linienNummer|1:VariantenNummer|3:fahrtNummer|2:Organisation_ID.organisationsNummer") ].

(** [_fields[tag]]; a missing key is a [KeyError]. *)
Definition fields_get (tag : Z) : outcome string :=
  match find (fun kv => (fst kv =? tag)%Z) _fields with
  | Some kv => Ok (snd kv)
  | None => Raise KeyError
  end.

(** DateTimeCompact is a four-byte encoding of date and time. *)
Definition _decode_datetimecompact (dt : Z) : Z * Z * Z * Z * Z * Z :=
  let year := (Z.shiftr dt (16 + 9) + 1990)%Z in
  let month := Z.land (Z.shiftr dt (16 + 5)) 0xF in
  let day := Z.land (Z.shiftr dt 16) 0x1F in
  let hour := Z.land (Z.shiftr dt 11) 0x1F in
  let min := Z.land (Z.shiftr dt 5) 0x3F in
  let sec := (Z.land dt 0x1F * 2)%Z in
  (year, month, day, hour, min, sec).

(** ["%04d-%02d-%02d %02d:%02d:%02d" % val] *)
Definition format_datetime (val : Z * Z * Z * Z * Z * Z) : string :=
  let '(year, month, day, hour, min, sec) := val in
  Fmt.d0 4 year ++ "-" ++ Fmt.d0 2 month ++ "-" ++ Fmt.d0 2 day ++ " "
    ++ Fmt.d0 2 hour ++ ":" ++ Fmt.d0 2 min ++ ":" ++ Fmt.d0 2 sec.

(** [(next(idata) << 24) + (next(idata) << 16) + (next(idata) << 8)
     + next(idata)], operands read from left to right. *)
Definition next4 : iter_m Z :=
  fun idata =>
    '(b0, i) <- next idata ;;
    '(b1, i) <- next i ;;
    '(b2, i) <- next i ;;
    '(b3, i) <- next i ;;
    Ok ((Z.shiftl b0 24 + Z.shiftl b1 16 + Z.shiftl b2 8 + b3)%Z, i).

(** ["".join(["%02x" % next(idata) for x in range(n)])] *)
Fixpoint next_hex (n : nat) : iter_m string :=
  fun idata =>
    match n with
    | O => Ok ("", idata)
    | S n' =>
        '(b, i) <- next idata ;;
        '(s, i) <- next_hex n' i ;;
        Ok (Fmt.x0 2 b ++ s, i)
    end.

(** [chr(x)]; the strings of this development hold one-byte characters,
    which is all that a list of bytes gives. *)
Definition chr (x : Z) : outcome ascii :=
  if ((0 <=? x) && (x <? 256))%Z then Ok (ascii_of_N (Z.to_N x))
  else Raise ValueError.

(** ["".join([chr(x) for x in idata])] *)
Fixpoint chr_join (idata : list Z) : outcome string :=
  match idata with
  | [] => Ok ""
  | x :: rest => c <- chr x ;; s <- chr_join rest ;; Ok (String c s)
  end.

(** The [if type == ...] chain of [_decode_internal]: the value of one
    field of the given type. *)
Definition decode_field (type : string) : iter_m pyval :=
  fun idata =>
    if type =? "1" then
      '(b, i) <- next idata ;; Ok (VInt b, i)
    else if type =? "2" then
      '(b0, i) <- next idata ;;
      '(b1, i) <- next i ;;
      Ok (VInt (Z.shiftl b0 8 + b1), i)
    else if type =? "3" then
      '(b0, i) <- next idata ;;
      '(b1, i) <- next i ;;
      '(b2, i) <- next i ;;
      Ok (VInt (Z.shiftl b0 16 + Z.shiftl b1 8 + b2), i)
    else if type =? "4" then
      '(val, i) <- next4 idata ;; Ok (VInt val, i)
    else if type =? "8" then
      '(s, i) <- next_hex 8 idata ;; Ok (VStr s, i)
    else if type =? "B" then
      '(s, i) <- next_hex 2 idata ;; Ok (VStr s, i)
    else if type =? "D" then
      '(val, i) <- next4 idata ;;
      Ok (VStr (format_datetime (_decode_datetimecompact val)), i)
    else if type =? "H" then
      '(b0, i) <- next idata ;;
      '(b1, i) <- next i ;;
      '(b2, i) <- next i ;;
      '(b3, i) <- next i ;;
      Ok (VStr (Fmt.x0 2 b0 ++ Fmt.x0 2 b1 ++ "-" ++ Fmt.x0 2 b2 ++ "-"
                  ++ Fmt.x0 2 b3), i)
    else if type =? "S" then
      s <- chr_join idata ;; Ok (VStr s, [])
    else Raise ValueError.

(** The [for field in fdef.split("|")] loop of [_decode_internal]. *)
Fixpoint decode_fields (fields : list string) (idata : list Z)
  (result : odict) : outcome odict :=
  match fields with
  | [] => Ok result
  | field :: rest =>
      match Fmt.split ":" field with
      | [type; name] =>
          '(val, idata') <- decode_field type idata ;;
          decode_fields rest idata'
            (if name =? "" then result else odict_set result name val)
      | _ => Raise ValueError
      end
  end.

Definition _decode_internal (idata : list Z) (fdef : string)
  : outcome odict :=
  decode_fields (Fmt.split "|" fdef) idata [].

(** [decode(tag, data)]: a [KeyError] from the body gives [None], every
    other exception passes. *)
Definition decode (tag : Z) (data : list Z) : outcome (option odict) :=
  match (fdef <- fields_get tag ;; _decode_internal data fdef) with
  | Ok result => Ok (Some result)
  | Raise KeyError => Ok None
  | Raise e => Raise e
  | NoFuel => NoFuel
  end.

End VdvKaDecoder.

(** ** Pretty-printing *)

(** What a call that prints has done when it ends: the lines it printed,
    and how it ended.  Lines printed before an exception stay printed. *)
Definition printed : Type := list string * outcome unit.

(** [print(line)] *)
Definition print (line : string) : printed := ([line], Ok tt).

(** Sequencing of two printing steps: the second runs only when the
    first returned. *)
Definition seq_print (p : printed) (q : printed) : printed :=
  match snd p with
  | Ok _ => (fst p ++ fst q, snd q)
  | _ => p
  end.

(** A step that is an expression which may raise before anything is
    printed. *)
Definition eval_then {A : Type} (c : outcome A) (k : A -> printed) : printed :=
  match c with
  | Ok a => k a
  | Raise e => ([], Raise e)
  | NoFuel => ([], NoFuel)
  end.

Module Render.
Local Open Scope string_scope.

(** [_get_tag_name(tag)] *)
Definition _get_tag_name (tag : Z) : outcome string :=
  match (nm <- Tag.name tag ;; Ok (Fmt.x0 2 tag ++ " (" ++ nm ++ ")")) with
  | Raise ValueError => Ok (Fmt.x0 2 tag ++ " (???)")
  | r => r
  end.

(** The lines of [for n,v in decoded.items(): print(...)]. *)
Definition detail_lines (indent : nat) (decoded : odict) : list string :=
  map (fun nv => Fmt.repeat_str "  " indent ++ "  " ++ fst nv ++ ": "
                   ++ py_str (snd nv)) decoded.

(** The [else] branch of [_pretty_print_internal]: a value that is not
    a nested list. *)
Definition print_leaf (with_details : bool) (indent : nat)
  (tag_name : string) (tag : Z) (value : list elem) : printed :=
  eval_then (BerTlv.ints value) (fun bytes =>
    seq_print
      (print (String.concat " "
                ((Fmt.repeat_str "  " indent ++ tag_name ++ ":")
                   :: map (Fmt.x0 2) bytes)))
      (if with_details then
         eval_then (VdvKaDecoder.decode tag bytes) (fun decoded =>
           match decoded with
           | Some d => (detail_lines indent d, Ok tt)
           | None => ([], Ok tt)
           end)
       else ([], Ok tt))).

(** [for tlv in data: body(tlv)] *)
Fixpoint for_each (body : elem -> printed) (data : list elem) : printed :=
  match data with
  | [] => ([], Ok tt)
  | tlv :: rest => seq_print (body tlv) (for_each body rest)
  end.

(** The body of the loop of [_pretty_print_internal] for one item. *)
Fixpoint print_tlv (with_names with_details : bool) (indent : nat)
  (tlv : elem) {struct tlv} : printed :=
  match tlv with
  | EInt _ => ([], Raise TypeError)
  | ENode tag length value =>
      eval_then
        (if with_names then _get_tag_name tag else Ok (Fmt.x0 2 tag))
        (fun tag_name =>
           if BerTlv._is_nested_tlv value then
             seq_print
               (print (Fmt.repeat_str "  " indent ++ tag_name ++ ":"))
               (for_each (print_tlv with_names with_details (S indent))
                  value)
           else print_leaf with_details indent tag_name tag value)
  end.

Definition _pretty_print_internal (data : list elem)
  (with_names with_details : bool) (indent : nat) : printed :=
  for_each (print_tlv with_names with_details indent) data.

(** [pretty_print(with_names, with_details)] of a [BerTlv] whose
    [_bertlv] is the first argument. *)
Definition pretty_print (_bertlv : list elem)
  (with_names with_details : bool) : printed :=
  _pretty_print_internal _bertlv with_names with_details 0.

End Render.

(** ** Talking to the card *)

Definition GET_DATA_NEXT : list Z := [0x10; 0xCA; 0x01; 0xF0; 0x02].
Definition GET_DATA_LAST : list Z := [0x00; 0xCA; 0x01; 0xF0; 0x02].

(** SW1SW2 = 0x9000 indicates a successful transaction. *)
Definition success (sw1 sw2 : Z) : bool := (sw1 =? 0x90) && (sw2 =? 0).

(** A reply of the card: response bytes, SW1, SW2. *)
Definition reply : Type := list Z * Z * Z.

(** The connection as the script sees it: the card answers the [i]-th
    command it receives with [replies i]; [sent] records the commands
    transmitted so far, oldest first. *)
Record connection : Type := {
  replies : nat -> reply;
  sent : list (list Z)
}.

(** [connection.transmit(apdu)] *)
Definition transmit (c : connection) (apdu : list Z) : reply * connection :=
  (replies c (List.length (sent c)),
   {| replies := replies c; sent := sent c ++ [apdu] |}).

(** The [while True] loop of [read_chained_data] with what follows it;
    one unit of fuel per iteration. *)
Fixpoint chained_loop (fuel : nat) (c : connection) (record : list Z)
  (full_data : list Z) : outcome (reply * connection) :=
  match fuel with
  | O => NoFuel
  | S fuel' =>
      let '((response, sw1, sw2), c1) :=
        transmit c (GET_DATA_NEXT ++ record ++ [0x00]) in
      let full_data := full_data ++ response in
      if negb (success sw1 sw2) then Ok ((full_data, sw1, sw2), c1)
      else if (List.length response <? 256)%nat then
        let '((response, sw1, sw2), c2) :=
          transmit c1 (GET_DATA_LAST ++ record ++ [0x00]) in
        Ok ((full_data, sw1, sw2), c2)
      else chained_loop fuel' c1 record full_data
  end.

(** Use chained mode to read data structures that might be longer than
    256 bytes. *)
Definition read_chained_data (fuel : nat) (c : connection) (record : list Z)
  : outcome (reply * connection) :=
  chained_loop fuel c record [].

(** ** Parse and pretty print TLV data *)

(** The expression under [try] in [pretty_print_block]:
    [(t.get_child(BERECHTIGUNG).get_child(BERECHTIGUNG_SEPARATE_DATEN)
       .get_value(BERECHTIGUNG_PRODUKTSPEZIFISCH)[0] & 0xF0) == 0xD0].
    [None] has no attribute [get_child] or [get_value]
    ([AttributeError]) and is not subscriptable ([TypeError]); [b''[0]]
    is an [IndexError]. *)
Definition tlv_efs_test (t : list elem) : outcome bool :=
  c1 <- BerTlv.get_child t Tag.BERECHTIGUNG ;;
  match c1 with
  | None => Raise AttributeError
  | Some t1 =>
      c2 <- BerTlv.get_child t1 Tag.BERECHTIGUNG_SEPARATE_DATEN ;;
      match c2 with
      | None => Raise AttributeError
      | Some t2 =>
          v <- BerTlv.get_value t2 Tag.BERECHTIGUNG_PRODUKTSPEZIFISCH ;;
          match v with
          | None => Raise TypeError
          | Some [] => Raise IndexError
          | Some (b :: _) => Ok (Z.land b 0xF0 =? 0xD0)
          end
      end
  end.

(** [try: is_tlv_efs = ... except AttributeError: is_tlv_efs = False] *)
Definition is_tlv_efs (t : list elem) : outcome bool :=
  match tlv_efs_test t with
  | Raise AttributeError => Ok false
  | r => r
  end.

Definition pretty_print_block (response : list Z) (sw1 sw2 : Z) : printed :=
  seq_print
    (if success sw1 sw2 then
       eval_then (BerTlv.init response) (fun t =>
       eval_then (is_tlv_efs t) (fun efs =>
       eval_then (if efs then BerTlv._parse_internal response true
                  else Ok t) (fun t =>
       Render.pretty_print t true true)))
     else print ("Fehler " ++ Fmt.x0 2 sw1 ++ Fmt.x0 2 sw2)%string)
    (print "").

(** * Notions used in the statements *)

(** ** Parsed trees *)

(** The step of [read_tlv] that reads the length, short or long form. *)
Definition read_length (length : Z) : iter_m Z :=
  fun i2 =>
    if Z.land length 0x80 =? 0 then Ok (length, i2)
    else BerTlv.read_long_length (Z.to_nat (Z.land length 0x7f)) 0 i2.

(** The tree that [_parse_internal] returns. *)
Definition tree_of (data : list Z) (hack : bool) : list elem :=
  match BerTlv._parse_internal data hack with
  | Ok tree => tree
  | _ => []
  end.

(** Whether an item is a node. *)
Definition is_node (e : elem) : bool :=
  match e with
  | ENode _ _ _ => true
  | EInt _ => false
  end.

(** A byte sequence made of complete elements. *)
Inductive complete : list Z -> Prop :=
| complete_nil : complete []
| complete_cons idata x rest :
    BerTlv.read_tlv idata = Ok (x, rest) -> complete rest -> complete idata.

(** The rule in the words of the specification: bit 0x20 of the tag is
    set and the tag is not 0xED, or the mode is TLV-EFS and the tag is
    0x85. *)
Definition constructed_by_rule (t : Z) (m : bool) : Prop :=
  (Z.testbit t 5 = true /\ t <> 0xED) \/ (m = true /\ t = 0x85).

(** Whether a node with tag [t] occurs in [e], at any depth. *)
Fixpoint has_tag (t : Z) (e : elem) : bool :=
  match e with
  | EInt _ => false
  | ENode tag _ value => (tag =? t) || existsb (has_tag t) value
  end.

(** Whether an item is a node with tag [t]. *)
Definition tag_is (t : Z) (e : elem) : bool :=
  match e with
  | ENode tag _ _ => tag =? t
  | EInt _ => false
  end.

(** Whether a payload is a nested sequence: a sequence of child nodes
    that is not empty. *)
Definition is_sequence (value : list elem) : bool :=
  match value with
  | [] => false
  | _ => forallb is_node value
  end.

(** Whether an item is a node with tag [t] whose payload is a nested
    sequence. *)
Definition nested_with_tag (t : Z) (e : elem) : bool :=
  match e with
  | ENode tag _ value => (tag =? t) && is_sequence value
  | EInt _ => false
  end.

(** [nthChild] in the words of the specification: the [n]-th (from 0,
    in encounter order) of the direct children whose tag is [t] and
    whose payload is a nested sequence; absent when there are fewer than
    [n+1] of them. *)
Definition nth_child_as_stated (tree : list elem) (t : Z) (n : nat)
  : option (list elem) :=
  match nth_error (filter (nested_with_tag t) tree) n with
  | Some (ENode _ _ value) => Some value
  | _ => None
  end.

(** [nthChild] with the children counted by tag alone: the [n]-th (from
    0, in encounter order) of the direct children whose tag is [t],
    whatever their payload, is looked at; it is the result when its
    payload is a nested sequence; the result is absent when that child
    is a leaf or holds nothing, or when there are fewer than [n+1]
    children with the tag. *)
Definition nth_child_by_tag (tree : list elem) (t : Z) (n : nat)
  : option (list elem) :=
  match nth_error (filter (tag_is t) tree) n with
  | Some (ENode _ _ value) => if is_sequence value then Some value else None
  | _ => None
  end.

(** The number of length octets of the shortest BER encoding of a
    length: one octet up to 127, else one octet with the count and the
    big-endian octets of the length. *)
Definition length_octets (length : Z) : Z :=
  if length <? 128 then 1 else 2 + Z.log2 length / 8.

(** The encoded size of an item: a raw byte is one octet, a node is its
    tag octet, its length octets and [length] value octets. *)
Definition encoded_length (e : elem) : Z :=
  match e with
  | EInt _ => 1
  | ENode _ length _ => 1 + length_octets length + length
  end.



(** Whether an item is a raw byte. *)
Definition is_int (e : elem) : bool :=
  match e with
  | EInt _ => true
  | ENode _ _ _ => false
  end.


(** The integers that a list of bytes holds. *)
Definition is_byte (b : Z) : Prop := 0 <= b < 256.

(** ** Packed dates *)

(** Bits [hi:lo] of [dt], bit 0 being the least significant one. *)
Definition bits (dt hi lo : Z) : Z := (dt / 2 ^ lo) mod 2 ^ (hi - lo + 1).

(** The four bytes as a 32-bit big-endian value. *)
Definition big_endian32 (b0 b1 b2 b3 : Z) : Z :=
  b0 * 2 ^ 24 + b1 * 2 ^ 16 + b2 * 2 ^ 8 + b3.

(** ** Cards and commands *)

(** Whether the loop of [read_chained_data] goes on after a reply: the
    status is success and the chunk is full. *)
Definition goes_on (r : reply) : bool :=
  let '(response, sw1, sw2) := r in
  success sw1 sw2 && negb (List.length response <? 256)%nat.

(** Whether a reply has the success status. *)
Definition reply_ok (r : reply) : bool :=
  let '(_, sw1, sw2) := r in success sw1 sw2.

(** The two commands of a chained read of [record]. *)
Definition next_command (record : list Z) : list Z :=
  GET_DATA_NEXT ++ record ++ [0x00].

Definition last_command (record : list Z) : list Z :=
  GET_DATA_LAST ++ record ++ [0x00].

(** Equality of two commands. *)
Definition list_Z_eqb (a b : list Z) : bool :=
  if list_eq_dec Z.eq_dec a b then true else false.

(** How many times a command occurs among the commands sent. *)
Definition count_command (apdu : list Z) (commands : list (list Z)) : nat :=
  List.length (filter (list_Z_eqb apdu) commands).

(** A card that answers every command with a full chunk and success. *)
Definition always_full : connection :=
  {| replies := fun _ => (repeat 0 256, 0x90, 0x00); sent := [] |}.

(** A card that answers every command with status 6A82. *)
Definition always_failing : connection :=
  {| replies := fun _ => ([], 0x6A, 0x82); sent := [] |}.

(** A card that answers three times with a full chunk and then with a
    chunk of 100 bytes, always with the success status. *)
Definition three_full_then_short : connection :=
  {| replies := fun i => if (i <? 3)%nat then (repeat 0 256, 0x90, 0x00)
                         else (repeat 0 100, 0x90, 0x00);
     sent := [] |}.

(** ** Field definitions *)

(** The number of bytes a field of a type takes; [S] takes what is
    left, possibly nothing. *)
Definition type_width (type : string) : option nat :=
  if (type =? "1")%string then Some 1%nat
  else if (type =? "2")%string then Some 2%nat
  else if (type =? "3")%string then Some 3%nat
  else if (type =? "4")%string then Some 4%nat
  else if (type =? "8")%string then Some 8%nat
  else if (type =? "B")%string then Some 2%nat
  else if (type =? "D")%string then Some 4%nat
  else if (type =? "H")%string then Some 4%nat
  else if (type =? "S")%string then Some 0%nat
  else None.

(** The number of bytes the fields of a definition take together. *)
Fixpoint fields_width (fields : list string) : nat :=
  match fields with
  | [] => 0
  | field :: rest =>
      (match Fmt.split ":" field with
       | [type; _] =>
           match type_width type with Some w => w | None => 0 end
       | _ => 0
       end + fields_width rest)%nat
  end.

(** The number of bytes a leaf needs for its field definition. *)
Definition required_bytes (fdef : string) : nat :=
  fields_width (Fmt.split "|" fdef).

(** Every field is [type:name] with a type of the decoder, and a field
    of type [S] is the last one. *)
Fixpoint fields_wf (fields : list string) : bool :=
  match fields with
  | [] => true
  | field :: rest =>
      match Fmt.split ":" field with
      | [type; _] =>
          match type_width type with
          | Some _ =>
              (negb (type =? "S")%string
               || match rest with [] => true | _ => false end)
              && fields_wf rest
          | None => false
          end
      | _ => false
      end
  end.

(** The line with the raw bytes of a leaf in hex. *)
Definition hex_line (indent : nat) (tag_name : string) (bytes : list Z)
  : string :=
  String.concat " "
    ((Fmt.repeat_str "  " indent ++ tag_name ++ ":")%string
       :: map (Fmt.x0 2) bytes).

(** ** Encodings *)

(** The bytes of a tree whose lengths are all in the short form: a raw
    byte is itself, a node is its tag byte, its length byte and the
    bytes of its value. *)
Fixpoint encode (e : elem) : list Z :=
  match e with
  | EInt b => [b]
  | ENode tag length value => tag :: length :: flat_map encode value
  end.

(** A node that [encode] renders in the way the parser in mode
    [tlvefs_hack] reads back: its length is below 128 and is the number
    of bytes of its value; the value of a tag classified as constructed
    is made of such nodes, the value of another tag of raw bytes. *)
Fixpoint short_form (tlvefs_hack : bool) (e : elem) : bool :=
  match e with
  | EInt _ => false
  | ENode tag length value =>
      (0 <=? length) && (length <? 128)
      && (length =? Z.of_nat (List.length (flat_map encode value)))
      && (if BerTlv.is_constructed tag tlvefs_hack
          then forallb (short_form tlvefs_hack) value
          else forallb is_int value)
  end.

(** The number that length octets denote, most significant first. *)
Definition be_value (octets : list Z) : Z :=
  fold_left (fun acc b => acc * 256 + b) octets 0.

(** ** Navigation *)

(** The integers among the items of a value. *)
Definition int_items (value : list elem) : list Z :=
  flat_map (fun e => match e with EInt n => [n] | ENode _ _ _ => [] end)
    value.

(** Whether an item is a node with tag [t] whose value is not a nested
    sequence. *)
Definition leaf_with_tag (t : Z) (e : elem) : bool :=
  match e with
  | ENode tag _ value => (tag =? t) && negb (BerTlv._is_nested_tlv value)
  | EInt _ => false
  end.

(** The bytes of the first direct child with tag [t] that is a leaf. *)
Definition first_leaf (tree : list elem) (t : Z) : option (list Z) :=
  match find (leaf_with_tag t) tree with
  | Some (ENode _ _ value) => Some (int_items value)
  | _ => None
  end.

(** A node as the parser in mode [hack] builds it from the bytes [v] of
    its value. *)
Definition parsed_node (hack : bool) (e : elem) : Prop :=
  exists t l v,
    Forall is_byte v
    /\ e = ENode t l (if BerTlv.is_constructed t hack then tree_of v hack
                      else raw v).

(** ** Decoded fields *)

(** [ord(c)] for each character of a string. *)
Definition codes (s : string) : list Z :=
  map (fun c => Z.of_N (N_of_ascii c)) (list_ascii_of_string s).

(** The names of the fields of a definition, in order. *)
Definition field_names (fields : list string) : list string :=
  map (fun field => match Fmt.split ":" field with
                    | [_; name] => name
                    | _ => EmptyString
                    end) fields.

(** The keys of a record after [result[name] = val] for each name that
    is not empty, in order. *)
Definition add_key (keys : list string) (name : string) : list string :=
  if (name =? "")%string then keys
  else if existsb (String.eqb name) keys then keys
  else keys ++ [name].

(** Equality of two lists of names. *)
Definition names_eqb (a b : list string) : bool :=
  if list_eq_dec string_dec a b then true else false.

(** The names of a definition that are not empty. *)
Definition named_fields (fdef : string) : list string :=
  filter (fun name => negb (name =? "")%string)
    (field_names (Fmt.split "|" fdef)).

(** A date and time packed the DateTimeCompact way; [sec2] counts
    seconds in twos. *)
Definition pack_datetime (year month day hour min sec2 : Z) : Z :=
  (year - 1990) * 2 ^ 25 + month * 2 ^ 21 + day * 2 ^ 16 + hour * 2 ^ 11
  + min * 2 ^ 5 + sec2.

(** ** Chunks and rendered trees *)

(** The response bytes of the [n] replies from the [p]-th on, put
    together. *)
Fixpoint chunks (c : connection) (p n : nat) : list Z :=
  match n with
  | O => []
  | S n' => fst (fst (replies c p)) ++ chunks c (S p) n'
  end.

(** The status bytes of a reply. *)
Definition status (r : reply) : Z * Z := (snd (fst r), snd r).

(** The number of nodes of an item, at all depths. *)
Fixpoint count_nodes (e : elem) : nat :=
  match e with
  | EInt _ => 0
  | ENode _ _ value => S (list_sum (map count_nodes value))
  end.

(** Whether every leaf below an item that has a field definition has at
    least the bytes the definition takes. *)
Fixpoint leaves_fit (e : elem) : bool :=
  match e with
  | EInt _ => true
  | ENode tag _ value =>
      if BerTlv._is_nested_tlv value then forallb leaves_fit value
      else match VdvKaDecoder.fields_get tag with
           | Ok fdef => (required_bytes fdef <=? List.length value)%nat
           | _ => true
           end
  end.

(** * Properties *)

(** ** The embedding on the examples of the specification *)

Section Examples.
Import BerTlv.
Local Open Scope string_scope.

(** A length byte 0x82 followed by 0x01 0x00 is the length 256, and 256
    value bytes follow. *)
Example read_tlv_long_form :
  read_tlv (0xC7 :: 0x82 :: 0x01 :: 0x00 :: repeat 0x41 256 ++ [0xC0; 0x00])%Z
  = Ok ((0xC7, 256, repeat 0x41 256), [0xC0; 0x00])%Z.
Proof. vm_compute. reflexivity. Qed.

(** Tag 0xED has bit 0x20 set and is kept as a leaf; tag 0x85 is a leaf
    by default and a nested sequence in TLV-EFS mode. *)
Example parse_false_constructed :
  _parse_internal [0xED; 0x02; 0xC0; 0x00; 0x85; 0x03; 0xDA; 0x01; 0x02]%Z false
  = Ok [ENode 0xED 2 [EInt 0xC0; EInt 0x00];
        ENode 0x85 3 [EInt 0xDA; EInt 0x01; EInt 0x02]]
  /\ _parse_internal [0xED; 0x02; 0xC0; 0x00; 0x85; 0x03; 0xDA; 0x01; 0x02]%Z true
     = Ok [ENode 0xED 2 [EInt 0xC0; EInt 0x00];
           ENode 0x85 3 [ENode 0xDA 1 [EInt 0x02]]].
Proof. split; reflexivity. Qed.

(** Three chunks of 256 bytes and one of 100: four "next" commands, one
    "last" command, 868 bytes. *)
Example read_chained_data_868 :
  exists c',
    read_chained_data 4 three_full_then_short [Tag.BERECHTIGUNG; 0x01]%Z
    = Ok ((repeat 0 868, 0x90, 0x00)%Z, c')
    /\ sent c'
       = (repeat (next_command [Tag.BERECHTIGUNG; 0x01]%Z) 4
            ++ [last_command [Tag.BERECHTIGUNG; 0x01]%Z])%list.
Proof. eexists. split; vm_compute; reflexivity. Qed.

(** A block with a leaf that has a field definition and one that has
    none. *)
Example pretty_print_block_fields :
  pretty_print_block
    [0xE1; 0x06; 0x80; 0x02; 0x01; 0x07; 0xC0; 0x00; 0x42; 0x01; 0xFF]%Z
    0x90 0x00
  = (["e1 (APPLIKATIONSDATEN):";
      "  80 (APPLIKATIONSDATEN_DYNAMISCH): 01 07";
      "    appStatus: 1";
      "    appSynchronNummer: 7";
      "  c0 (ZEIGER):";
      "42 (???): ff";
      ""], Ok tt).
Proof. vm_compute. reflexivity. Qed.

(** A status other than 9000. *)
Example pretty_print_block_failure :
  pretty_print_block [] 0x6A 0x82 = (["Fehler 6a82"; ""], Ok tt).
Proof. reflexivity. Qed.

End Examples.

(** ** Reading one element *)

Module BerTlvFacts.
Import BerTlv.

Ltac inv H := inversion H; subst; clear H.

Lemma read_value_ok : forall idata length value rest,
    read_value length idata = Ok (value, rest) ->
    idata = value ++ rest /\ Z.of_nat (List.length value) = Z.max 0 length.
Proof.
  induction idata as [|b idata IH]; intros len value rest H; simpl in H.
  - destruct (len <=? 0) eqn:E; [|discriminate].
    inv H. apply Z.leb_le in E. split; [reflexivity|simpl; lia].
  - destruct (len <=? 0) eqn:E.
    + inv H. apply Z.leb_le in E. split; [reflexivity|simpl; lia].
    + apply Z.leb_gt in E.
      destruct (read_value (len - 1) idata) as [[v r]| |] eqn:R;
        simpl in H; try discriminate.
      inv H. apply IH in R. destruct R as [-> R]. split; [reflexivity|].
      simpl List.length. lia.
Qed.

Lemma read_value_fail : forall idata length,
    (exists value rest, read_value length idata = Ok (value, rest))
    \/ read_value length idata = Raise StopIteration.
Proof.
  induction idata as [|b idata IH]; intros len; simpl.
  - destruct (len <=? 0); eauto.
  - destruct (len <=? 0); eauto.
    destruct (IH (len - 1)) as [(v & r & ->)| ->]; simpl; eauto.
Qed.

Lemma read_value_app : forall idata length value rest more,
    read_value length idata = Ok (value, rest) ->
    read_value length (idata ++ more) = Ok (value, rest ++ more).
Proof.
  induction idata as [|b idata IH]; intros len value rest more H;
    simpl in H.
  - destruct (len <=? 0) eqn:E; [|discriminate]. inv H.
    destruct more; simpl; rewrite E; reflexivity.
  - simpl. destruct (len <=? 0) eqn:E.
    + inv H. reflexivity.
    + destruct (read_value (len - 1) idata) as [[v r]| |] eqn:R;
        simpl in H; try discriminate.
      inv H. rewrite (IH _ _ _ more R). reflexivity.
Qed.

Lemma read_long_length_ok : forall n acc idata length rest,
    read_long_length n acc idata = Ok (length, rest) ->
    exists octets, idata = octets ++ rest /\ List.length octets = n.
Proof.
  induction n as [|n IH]; intros acc idata len rest H; simpl in H.
  - inv H. exists []. split; reflexivity.
  - destruct idata as [|b idata]; simpl in H; [discriminate|].
    apply IH in H. destruct H as (o & -> & <-).
    exists (b :: o). split; reflexivity.
Qed.

Lemma read_long_length_fail : forall n acc idata,
    (exists length rest, read_long_length n acc idata = Ok (length, rest))
    \/ read_long_length n acc idata = Raise StopIteration.
Proof.
  induction n as [|n IH]; intros acc idata; simpl; eauto.
  destruct idata as [|b idata]; simpl; eauto.
Qed.

Lemma read_long_length_app : forall n acc idata length rest more,
    read_long_length n acc idata = Ok (length, rest) ->
    read_long_length n acc (idata ++ more) = Ok (length, rest ++ more).
Proof.
  induction n as [|n IH]; intros acc idata len rest more H; simpl in H.
  - inv H. reflexivity.
  - destruct idata as [|b idata]; simpl in H; [discriminate|].
    simpl. apply IH. exact H.
Qed.

Lemma read_tlv_eq : forall idata,
    read_tlv idata =
      match idata with
      | tag :: lenbyte :: i2 =>
          '(length, i3) <- read_length lenbyte i2 ;;
          '(value, i4) <- read_value length i3 ;;
          Ok ((tag, length, value), i4)
      | _ => Raise StopIteration
      end.
Proof.
  intros [|tag [|lenbyte i2]]; reflexivity.
Qed.

(** An element that was read is a tag byte, at least one length byte
    and the value bytes, followed by what is left. *)
Lemma read_tlv_ok : forall idata tag length value rest,
    read_tlv idata = Ok ((tag, length, value), rest) ->
    exists octets,
      idata = tag :: octets ++ value ++ rest
      /\ (1 <= List.length octets)%nat
      /\ Z.of_nat (List.length value) = Z.max 0 length.
Proof.
  intros idata tag len value rest H. rewrite read_tlv_eq in H.
  destruct idata as [|t [|lb i2]]; try discriminate.
  unfold read_length in H.
  destruct (Z.land lb 128 =? 0).
  - simpl in H.
    destruct (read_value lb i2) as [[v r]| |] eqn:R; simpl in H;
      try discriminate.
    inv H. apply read_value_ok in R. destruct R as [-> R].
    exists [len]. repeat split; simpl; auto.
  - destruct (read_long_length (Z.to_nat (Z.land lb 127)) 0 i2)
      as [[l i3]| |] eqn:L; simpl in H; try discriminate.
    destruct (read_value l i3) as [[v r]| |] eqn:R; simpl in H;
      try discriminate.
    inv H. apply read_value_ok in R. destruct R as [-> R].
    apply read_long_length_ok in L. destruct L as (o & -> & _).
    exists (lb :: o). split; [|split; [simpl; lia|exact R]].
    reflexivity.
Qed.

Lemma read_tlv_shorter : forall idata tag length value rest,
    read_tlv idata = Ok ((tag, length, value), rest) ->
    (List.length value + List.length rest + 2 <= List.length idata)%nat.
Proof.
  intros idata tag len value rest H.
  apply read_tlv_ok in H. destruct H as (o & -> & Ho & _).
  simpl. rewrite !length_app. lia.
Qed.

(** Reading an element either gives one or raises [StopIteration]. *)
Lemma read_tlv_fail : forall idata,
    (exists x rest, read_tlv idata = Ok (x, rest))
    \/ read_tlv idata = Raise StopIteration.
Proof.
  intros idata. rewrite read_tlv_eq.
  destruct idata as [|t [|lb i2]]; auto.
  assert (L : (exists l i3, read_length lb i2 = Ok (l, i3))
              \/ read_length lb i2 = Raise StopIteration).
  { unfold read_length. destruct (Z.land lb 128 =? 0); eauto.
    apply read_long_length_fail. }
  destruct L as [(l & i3 & ->)| ->]; simpl; auto.
  destruct (read_value_fail i3 l) as [(v & r & ->)| ->]; simpl; eauto.
Qed.

(** Bytes after a complete element do not change how it is read. *)
Lemma read_tlv_app : forall idata x rest more,
    read_tlv idata = Ok (x, rest) ->
    read_tlv (idata ++ more) = Ok (x, rest ++ more).
Proof.
  intros idata x rest more H. rewrite read_tlv_eq in H.
  destruct idata as [|t [|lb i2]]; try discriminate.
  simpl app. rewrite read_tlv_eq.
  destruct (read_length lb i2) as [[l i3]| |] eqn:L; simpl in H;
    try discriminate.
  destruct (read_value l i3) as [[v r]| |] eqn:R; simpl in H;
    try discriminate.
  inv H.
  assert (L' : read_length lb (i2 ++ more) = Ok (l, i3 ++ more)).
  { unfold read_length in *. destruct (Z.land lb 128 =? 0).
    - inv L. reflexivity.
    - apply read_long_length_app. exact L. }
  rewrite L'. simpl. rewrite (read_value_app _ _ _ _ more R). reflexivity.
Qed.

(** ** The parsing loop *)

Lemma parse_loop_step : forall fuel hack idata decoded,
    parse_loop (S fuel) hack idata decoded =
      match read_tlv idata with
      | NoFuel => NoFuel
      | Raise StopIteration => Ok decoded
      | Raise e => Raise e
      | Ok ((tag, length, value), idata') =>
          if is_constructed tag hack then
            match parse_loop fuel hack value [] with
            | NoFuel => NoFuel
            | Raise StopIteration => Ok decoded
            | Raise e => Raise e
            | Ok inner =>
                parse_loop fuel hack idata'
                  (decoded ++ [ENode tag length inner])
            end
          else
            parse_loop fuel hack idata'
              (decoded ++ [ENode tag length (raw value)])
      end.
Proof. reflexivity. Qed.

(** With more fuel than bytes the loop returns, and what it appends to
    [decoded] depends neither on the fuel nor on [decoded]. *)
Lemma parse_loop_enough : forall f1 f2 hack idata d1 d2,
    (List.length idata < f1)%nat ->
    (List.length idata < f2)%nat ->
    exists tree,
      parse_loop f1 hack idata d1 = Ok (d1 ++ tree)
      /\ parse_loop f2 hack idata d2 = Ok (d2 ++ tree).
Proof.
  induction f1 as [|f1 IH]; intros f2 hack idata d1 d2 H1 H2; [lia|].
  destruct f2 as [|f2]; [lia|].
  rewrite !parse_loop_step.
  destruct (read_tlv_fail idata) as [([[tag len] value] & rest & E)|E];
    rewrite E.
  - pose proof (read_tlv_shorter _ _ _ _ _ E) as Hl.
    destruct (is_constructed tag hack).
    + destruct (IH f2 hack value [] []) as (inner & I1 & I2); try lia.
      rewrite I1, I2. simpl app.
      destruct (IH f2 hack rest (d1 ++ [ENode tag len inner])
                  (d2 ++ [ENode tag len inner])) as (tl & T1 & T2);
        try lia.
      exists (ENode tag len inner :: tl).
      rewrite T1, T2, <- !app_assoc. split; reflexivity.
    + destruct (IH f2 hack rest (d1 ++ [ENode tag len (raw value)])
                  (d2 ++ [ENode tag len (raw value)])) as (tl & T1 & T2);
        try lia.
      exists (ENode tag len (raw value) :: tl).
      rewrite T1, T2, <- !app_assoc. split; reflexivity.
  - exists []. rewrite !app_nil_r. split; reflexivity.
Qed.

Lemma parse_loop_tree_of : forall fuel hack idata decoded,
    (List.length idata < fuel)%nat ->
    parse_loop fuel hack idata decoded = Ok (decoded ++ tree_of idata hack).
Proof.
  intros fuel hack idata decoded H.
  destruct (parse_loop_enough fuel (S (List.length idata)) hack idata
              decoded []) as (tree & T1 & T2); try lia.
  unfold tree_of, _parse_internal. rewrite T1, T2. reflexivity.
Qed.

Lemma _parse_internal_ok : forall data hack,
    _parse_internal data hack = Ok (tree_of data hack).
Proof.
  intros data hack. unfold _parse_internal.
  rewrite parse_loop_tree_of by lia. reflexivity.
Qed.

(** The tree, element by element. *)
Lemma tree_of_eq : forall data hack,
    tree_of data hack =
      match read_tlv data with
      | Ok ((tag, length, value), rest) =>
          ENode tag length
            (if is_constructed tag hack then tree_of value hack
             else raw value)
            :: tree_of rest hack
      | _ => []
      end.
Proof.
  intros data hack. unfold tree_of at 1, _parse_internal.
  rewrite parse_loop_step.
  destruct (read_tlv_fail data) as [([[tag len] value] & rest & E)|E];
    rewrite E; [|reflexivity].
  pose proof (read_tlv_shorter _ _ _ _ _ E) as Hl.
  destruct (is_constructed tag hack).
  - rewrite (parse_loop_tree_of _ _ value) by lia. simpl app.
    rewrite parse_loop_tree_of by lia. reflexivity.
  - rewrite parse_loop_tree_of by lia. reflexivity.
Qed.

(** The top level of a parsed tree holds nodes only. *)
Lemma tree_of_nodes : forall n data hack,
    (List.length data <= n)%nat ->
    forallb is_node (tree_of data hack) = true.
Proof.
  induction n as [|n IH]; intros data hack H; rewrite tree_of_eq.
  - destruct data; [reflexivity|simpl in H; lia].
  - destruct (read_tlv data) as [[[[tag len] value] rest]| |] eqn:E;
      try reflexivity.
    pose proof (read_tlv_shorter _ _ _ _ _ E) as Hl.
    simpl. apply IH. lia.
Qed.

End BerTlvFacts.

(** ** Bytes that run out in the middle of an element *)

Section Truncation.
Import BerTlv BerTlvFacts.





End Truncation.

(** ** Which values are parsed as nested sequences *)

Section Classification.
Import BerTlv BerTlvFacts.

Lemma land_pow2 : forall a n,
    0 <= n -> Z.land a (2 ^ n) = if Z.testbit a n then 2 ^ n else 0.
Proof.
  intros a n Hn. apply Z.bits_inj'. intros m Hm.
  rewrite Z.land_spec, Z.pow2_bits_eqb by assumption.
  destruct (Z.eqb_spec n m) as [->|Hnm].
  - destruct (Z.testbit a m) eqn:E; simpl.
    + rewrite Z.pow2_bits_true by assumption. reflexivity.
    + rewrite Z.bits_0. reflexivity.
  - rewrite andb_false_r.
    destruct (Z.testbit a n).
    + rewrite Z.pow2_bits_false by assumption. reflexivity.
    + rewrite Z.bits_0. reflexivity.
Qed.

Lemma is_constructed_rule : forall t m,
    is_constructed t m = true <-> constructed_by_rule t m.
Proof.
  intros t m. unfold is_constructed, constructed_by_rule.
  change 32 with (2 ^ 5). rewrite land_pow2 by lia.
  unfold Tag.SCHLUESSELREGISTER_SEPARATE_DATEN,
    Tag.BERECHTIGUNG_PRODUKTSPEZIFISCH.
  destruct (Z.testbit t 5); destruct (Z.eqb_spec t 237);
    destruct (Z.eqb_spec t 133); destruct m; simpl;
    intuition (try discriminate; try lia).
Qed.

(** C4: the parser takes the value of an element as a nested sequence
    and parses it recursively exactly when the rule says so; tag 0xED
    is a leaf in both modes and tag 0x85 is nested in TLV-EFS mode
    only.  In the tree, the node of the first element read from [data]
    holds the parse of its value when the rule applies and the raw
    value bytes otherwise. *)
Theorem classification_rule : forall t m,
    (is_constructed t m = true <-> constructed_by_rule t m)
    /\ is_constructed 0xED m = false
    /\ is_constructed 0x85 m = m
    /\ forall data l v rest,
        read_tlv data = Ok ((t, l, v), rest) ->
        exists inner tl,
          _parse_internal v m = Ok inner
          /\ _parse_internal rest m = Ok tl
          /\ _parse_internal data m
             = Ok (ENode t l (if is_constructed t m then inner else raw v)
                     :: tl).
Proof.
  intros t m. split; [apply is_constructed_rule|].
  split; [destruct m; reflexivity|]. split; [destruct m; reflexivity|].
  intros data l v rest E.
  exists (tree_of v m), (tree_of rest m).
  rewrite !_parse_internal_ok. repeat split.
  rewrite (tree_of_eq data), E. reflexivity.
Qed.

Lemma classification_rule_witness :
  read_tlv [0x85; 0x02; 0xDA; 0x00; 0xC0; 0x00]
  = Ok ((0x85, 2, [0xDA; 0x00]), [0xC0; 0x00])
  /\ exists inner tl,
      _parse_internal [0xDA; 0x00] true = Ok inner
      /\ _parse_internal [0xC0; 0x00] true = Ok tl
      /\ _parse_internal [0x85; 0x02; 0xDA; 0x00; 0xC0; 0x00] true
         = Ok (ENode 0x85 2
                 (if is_constructed 0x85 true then inner
                  else raw [0xDA; 0x00]) :: tl).
Proof.
  split; [reflexivity|].
  apply (proj2 (proj2 (proj2 (classification_rule 0x85 true)))
           [0x85; 0x02; 0xDA; 0x00; 0xC0; 0x00] 2 [0xDA; 0x00]
           [0xC0; 0x00]).
  reflexivity.
Defined.

End Classification.

(** ** The TLV-EFS mode and tag 0x85 *)

Section TlvEfsMode.
Import BerTlv BerTlvFacts.

Lemma is_constructed_other_tag : forall t,
    t <> Tag.BERECHTIGUNG_PRODUKTSPEZIFISCH ->
    is_constructed t true = is_constructed t false.
Proof.
  intros t H. unfold is_constructed.
  destruct (Z.eqb_spec t Tag.BERECHTIGUNG_PRODUKTSPEZIFISCH);
    [contradiction|reflexivity].
Qed.

Lemma raw_has_no_tag : forall t bytes, existsb (has_tag t) (raw bytes) = false.
Proof. induction bytes; simpl; auto. Qed.

Lemma tree_of_mode : forall n data,
    (List.length data <= n)%nat ->
    existsb (has_tag 0x85) (tree_of data false) = false ->
    tree_of data true = tree_of data false.
Proof.
  induction n as [|n IH]; intros data Hn H;
    rewrite (tree_of_eq data true); rewrite (tree_of_eq data false) in *.
  - destruct data; [reflexivity|simpl in Hn; lia].
  - destruct (read_tlv data) as [[[[tag len] value] rest]| |] eqn:E;
      try reflexivity.
    pose proof (read_tlv_shorter _ _ _ _ _ E) as Hl.
    simpl in H. apply orb_false_elim in H. destruct H as [H Hrest].
    apply orb_false_elim in H. destruct H as [Htag Hval].
    apply Z.eqb_neq in Htag.
    rewrite (is_constructed_other_tag tag Htag).
    rewrite (IH rest) by (auto; lia).
    destruct (is_constructed tag false); [|reflexivity].
    rewrite (IH value) by (auto; lia). reflexivity.
Qed.

(** C10: when the default parse of the bytes has no node with tag
    0x85 at any depth, the parse with the TLV-EFS flag returns the same
    tree. *)
Theorem tlvefs_hack_same_tree_without_0x85 : forall data tree,
    _parse_internal data false = Ok tree ->
    existsb (has_tag 0x85) tree = false ->
    _parse_internal data true = Ok tree.
Proof.
  intros data tree P H. rewrite _parse_internal_ok in P.
  injection P as <-. rewrite _parse_internal_ok. f_equal.
  apply (tree_of_mode (List.length data)); auto.
Qed.

Lemma tlvefs_hack_same_tree_without_0x85_witness :
  _parse_internal [0xE8; 0x05; 0xEA; 0x03; 0x84; 0x01; 0xD0] false
  = Ok [ENode 0xE8 5 [ENode 0xEA 3 [ENode 0x84 1 [EInt 0xD0]]]]
  /\ existsb (has_tag 0x85)
       [ENode 0xE8 5 [ENode 0xEA 3 [ENode 0x84 1 [EInt 0xD0]]]] = false
  /\ _parse_internal [0xE8; 0x05; 0xEA; 0x03; 0x84; 0x01; 0xD0] true
     = Ok [ENode 0xE8 5 [ENode 0xEA 3 [ENode 0x84 1 [EInt 0xD0]]]].
Proof.
  split; [reflexivity|]. split; [reflexivity|].
  apply (tlvefs_hack_same_tree_without_0x85
           [0xE8; 0x05; 0xEA; 0x03; 0x84; 0x01; 0xD0]);
    reflexivity.
Defined.

End TlvEfsMode.

(** ** Navigation: the n-th child with a tag *)

Section Navigation.
Import BerTlv BerTlvFacts.

Lemma nth_child_loop_past : forall tree t no count,
    forallb is_node tree = true ->
    (no < count)%nat ->
    nth_child_loop tree t no count = Ok None.
Proof.
  induction tree as [|[b|temp len value] rest IH]; intros t no count N H;
    simpl in *; [reflexivity|discriminate|].
  destruct (temp =? t).
  - replace (count =? no)%nat with false
      by (symmetry; apply Nat.eqb_neq; lia).
    simpl. apply IH; [assumption|lia].
  - apply IH; assumption.
Qed.

(** The loop of [get_nth_child] from a count that has not passed the
    index: it ends on the item with the tag that the count will reach,
    if there is one. *)
Lemma nth_child_loop_rule : forall tree t no count,
    forallb is_node tree = true ->
    (count <= no)%nat ->
    nth_child_loop tree t no count
    = Ok (match nth_error (filter (tag_is t) tree) (no - count) with
          | Some (ENode _ _ value) =>
              if _is_nested_tlv value then Some value else None
          | _ => None
          end).
Proof.
  induction tree as [|[b|temp len value] rest IH]; intros t no count N H;
    simpl in N |- *.
  - simpl. destruct (no - count)%nat; reflexivity.
  - discriminate.
  - simpl filter.
    destruct (temp =? t) eqn:T.
    + destruct (Nat.eqb_spec count no) as [->|Hne].
      * rewrite Nat.sub_diag. simpl.
        destruct (_is_nested_tlv value); [reflexivity|].
        apply nth_child_loop_past; [assumption|lia].
      * simpl andb. rewrite IH by (auto; lia).
        replace (no - count)%nat with (S (no - S count)) by lia.
        reflexivity.
    + apply IH; assumption.
Qed.

(** The trees that [_parse_internal] returns are such trees. *)
Lemma parsed_tree_nodes : forall data hack tree,
    _parse_internal data hack = Ok tree -> forallb is_node tree = true.
Proof.
  intros data hack tree P. rewrite _parse_internal_ok in P.
  injection P as <-. apply (tree_of_nodes (List.length data)). lia.
Qed.

End Navigation.

(** ** The length field of a node *)

Section LengthField.
Import BerTlv BerTlvFacts.

Lemma lor_below_pow2 : forall a b m,
    0 <= a < 2 ^ m -> 0 <= b < 2 ^ m -> 0 <= Z.lor a b < 2 ^ m.
Proof.
  intros a b m Ha Hb.
  assert (N : 0 <= Z.lor a b) by (apply Z.lor_nonneg; lia).
  split; [exact N|].
  destruct (Z.eq_dec (Z.lor a b) 0) as [E|E]; [lia|].
  destruct (Z.eq_dec a 0) as [->|Ea].
  - rewrite Z.lor_0_l. lia.
  - destruct (Z.eq_dec b 0) as [->|Eb].
    + rewrite Z.lor_0_r. lia.
    + assert (L : Z.log2 (Z.lor a b) < m).
      { rewrite Z.log2_lor by lia.
        apply Z.max_lub_lt; apply Z.log2_lt_pow2; lia. }
      apply Z.log2_lt_pow2; lia.
Qed.

Lemma read_long_length_bound : forall n acc idata length rest k,
    Forall is_byte idata ->
    0 <= k ->
    0 <= acc < 2 ^ k ->
    read_long_length n acc idata = Ok (length, rest) ->
    0 <= length < 2 ^ (k + 8 * Z.of_nat n).
Proof.
  induction n as [|n IH]; intros acc idata len rest k B Hk Ha H.
  - simpl in H. inv H. replace (k + 8 * Z.of_nat 0) with k by lia. exact Ha.
  - destruct idata as [|b idata]; [discriminate|].
    change (read_long_length n (Z.lor (Z.shiftl acc 8) b) idata
            = Ok (len, rest)) in H.
    inversion B as [|? ? Hb B']; subst.
    replace (k + 8 * Z.of_nat (S n)) with ((k + 8) + 8 * Z.of_nat n) by lia.
    apply (IH _ _ _ _ (k + 8) B' ltac:(lia)) in H; [exact H|].
    unfold is_byte in Hb.
    assert (P : 2 ^ (k + 8) = 2 ^ k * 256)
      by (rewrite Z.pow_add_r by lia; reflexivity).
    apply lor_below_pow2.
    + rewrite Z.shiftl_mul_pow2 by lia. change (2 ^ 8) with 256. nia.
    + nia.
Qed.

Lemma short_form_below_128 : forall b,
    is_byte b -> Z.land b 128 = 0 -> b < 128.
Proof.
  intros b Hb H. unfold is_byte in Hb.
  destruct (Z.lt_ge_cases b 128) as [L|G]; [exact L|exfalso].
  change 128 with (2 ^ 7) in H. rewrite land_pow2 in H by lia.
  assert (T : Z.testbit b 7 = true).
  { apply Z.testbit_true; [lia|].
    change (2 ^ 7) with 128.
    replace (b / 128) with 1; [reflexivity|].
    apply Z.div_unique with (r := b - 128); lia. }
  rewrite T in H. discriminate.
Qed.

Lemma length_octets_long : forall length n,
    0 <= length < 2 ^ (8 * Z.of_nat n) ->
    length_octets length <= 1 + Z.of_nat n.
Proof.
  intros len n H. unfold length_octets.
  destruct (Z.ltb_spec len 128) as [L|G]; [lia|].
  assert (Z.log2 len < 8 * Z.of_nat n) by (apply Z.log2_lt_pow2; lia).
  assert (Z.log2 len / 8 < Z.of_nat n)
    by (apply Z.div_lt_upper_bound; lia).
  lia.
Qed.

(** An element read from bytes: its [length] is the number of its value
    bytes, and it takes at least its shortest encoding. *)
Lemma read_tlv_bytes : forall idata tag length value rest,
    Forall is_byte idata ->
    read_tlv idata = Ok ((tag, length, value), rest) ->
    Forall is_byte value /\ Forall is_byte rest
    /\ length = Z.of_nat (List.length value)
    /\ encoded_length (ENode tag length (raw value))
       + Z.of_nat (List.length rest) <= Z.of_nat (List.length idata).
Proof.
  intros idata tag len value rest B H.
  destruct (read_tlv_ok _ _ _ _ _ H) as (o & E & _ & V).
  rewrite read_tlv_eq in H.
  destruct idata as [|t [|lb i2]]; try discriminate.
  injection E as -> E.
  assert (Bo : Forall is_byte (o ++ value ++ rest))
    by (rewrite <- E; inversion B; assumption).
  apply Forall_app in Bo. destruct Bo as [Bo Bv].
  apply Forall_app in Bv. destruct Bv as [Bv Br].
  assert (Blb : is_byte lb /\ Forall is_byte i2).
  { inversion B as [|? ? _ B']; subst. inversion B'; subst. auto. }
  destruct Blb as [Blb Bi2].
  assert (L : 0 <= len /\ length_octets len <= Z.of_nat (List.length o)).
  { destruct (read_length lb i2) as [[l i3]| |] eqn:RL; simpl in H;
      try discriminate.
    destruct (read_value l i3) as [[v r]| |] eqn:RV; simpl in H;
      try discriminate.
    inv H. unfold read_length in RL.
    destruct (Z.eqb_spec (Z.land lb 128) 0) as [Sh|Sh].
    - inv RL. pose proof (short_form_below_128 _ Blb Sh) as Lt.
      unfold is_byte in Blb. split; [lia|].
      unfold length_octets. destruct (Z.ltb_spec len 128); [|lia].
      apply read_value_ok in RV. destruct RV as [RV _].
      assert (Hl : List.length (len :: i3)
                   = List.length (o ++ value ++ rest))
        by (rewrite E; reflexivity).
      rewrite RV in Hl. rewrite !length_app in Hl. simpl in Hl.
      rewrite length_app in Hl. lia.
    - pose proof (read_long_length_bound _ 0 _ _ _ 0 Bi2 ltac:(lia)
                    ltac:(simpl; lia) RL) as Bd.
      simpl in Bd. split; [lia|].
      apply read_long_length_ok in RL. destruct RL as (o' & Ei2 & Lo').
      apply read_value_ok in RV. destruct RV as [RV _].
      assert (Hl : List.length (lb :: i2)
                   = List.length (o ++ value ++ rest))
        by (rewrite E; reflexivity).
      rewrite Ei2, RV in Hl. simpl in Hl. rewrite !length_app in Hl.
      pose proof (length_octets_long len _ Bd) as Lo. lia. }
  destruct L as [L0 L1].
  split; [exact Bv|]. split; [exact Br|]. split; [lia|].
  change (tag :: lb :: i2) with ([tag] ++ lb :: i2).
  rewrite E, !length_app. unfold encoded_length. simpl List.length. lia.
Qed.


Lemma raw_length : forall bytes, List.length (raw bytes) = List.length bytes.
Proof. intros. apply length_map. Qed.





End LengthField.

(** ** DateTimeCompact *)

Section DateTimeCompact.
Import VdvKaDecoder.
Local Open Scope string_scope.

Lemma string_length_app : forall s1 s2,
    String.length (s1 ++ s2) = (String.length s1 + String.length s2)%nat.
Proof.
  induction s1 as [|c s1 IH]; intros s2; simpl; [reflexivity|].
  rewrite IH. reflexivity.
Qed.

Lemma d0_2_length : forall n,
    (0 <= n < 100)%Z -> String.length (Fmt.d0 2 n) = 2%nat.
Proof.
  intros n H.
  assert (A : forallb (fun k => Nat.eqb (String.length
                                   (Fmt.d0 2 (Z.of_nat k))) 2)
                (seq 0 100) = true) by (vm_compute; reflexivity).
  rewrite forallb_forall in A. specialize (A (Z.to_nat n)).
  rewrite Z2Nat.id in A by lia. apply Nat.eqb_eq, A, in_seq. lia.
Qed.

Lemma d0_4_length : forall n,
    (1990 <= n < 2118)%Z -> String.length (Fmt.d0 4 n) = 4%nat.
Proof.
  intros n H.
  assert (A : forallb (fun k => Nat.eqb (String.length
                                   (Fmt.d0 4 (Z.of_nat k))) 4)
                (seq 1990 128) = true) by (vm_compute; reflexivity).
  rewrite forallb_forall in A. specialize (A (Z.to_nat n)).
  rewrite Z2Nat.id in A by lia. apply Nat.eqb_eq, A, in_seq. lia.
Qed.

Lemma big_endian32_range : forall b0 b1 b2 b3,
    is_byte b0 -> is_byte b1 -> is_byte b2 -> is_byte b3 ->
    (0 <= big_endian32 b0 b1 b2 b3 < 2 ^ 32)%Z.
Proof.
  unfold is_byte, big_endian32. intros.
  change (2 ^ 24)%Z with 16777216%Z. change (2 ^ 16)%Z with 65536%Z.
  change (2 ^ 8)%Z with 256%Z. change (2 ^ 32)%Z with 4294967296%Z. lia.
Qed.

Lemma next4_bytes : forall b0 b1 b2 b3 rest,
    next4 (b0 :: b1 :: b2 :: b3 :: rest)
    = Ok (big_endian32 b0 b1 b2 b3, rest).
Proof.
  intros. unfold next4, next, bind, big_endian32.
  rewrite !Z.shiftl_mul_pow2 by lia. reflexivity.
Qed.

Lemma _decode_datetimecompact_bits : forall dt,
    (0 <= dt < 2 ^ 32)%Z ->
    _decode_datetimecompact dt
    = ((bits dt 31 25 + 1990)%Z, bits dt 24 21, bits dt 20 16,
       bits dt 15 11, bits dt 10 5, (bits dt 4 0 * 2)%Z).
Proof.
  intros dt H. unfold _decode_datetimecompact, bits.
  change 15%Z with (Z.ones 4). change 31%Z with (Z.ones 5) at 1 2 3.
  change 63%Z with (Z.ones 6).
  rewrite !Z.land_ones by lia. rewrite !Z.shiftr_div_pow2 by lia.
  change (16 + 9)%Z with 25%Z. change (16 + 5)%Z with 21%Z.
  change (31 - 25 + 1)%Z with 7%Z. change (24 - 21 + 1)%Z with 4%Z.
  change (20 - 16 + 1)%Z with 5%Z. change (15 - 11 + 1)%Z with 5%Z.
  change (10 - 5 + 1)%Z with 6%Z. change (4 - 0 + 1)%Z with 5%Z.
  rewrite (Z.mod_small (dt / 2 ^ 25) (2 ^ 7)).
  - rewrite Z.pow_0_r, Z.div_1_r. reflexivity.
  - split; [apply Z.div_pos; lia|].
    apply Z.div_lt_upper_bound; [lia|].
    change (2 ^ 25 * 2 ^ 7)%Z with (2 ^ 32)%Z. lia.
Qed.

(** C9: a field of type D takes four bytes; with [dt] their 32-bit
    big-endian value, the components are year = bits 31..25 plus 1990,
    month = bits 24..21, day = bits 20..16, hour = bits 15..11, minute =
    bits 10..5 and seconds = bits 4..0 times 2, and the value of the
    field is the 19-character text YYYY-MM-DD HH:MM:SS of these
    components, each padded with zeros.  The decoder is a function of
    the bytes alone, so the same bytes give the same text. *)
Theorem datetimecompact_decode : forall b0 b1 b2 b3 rest,
    is_byte b0 -> is_byte b1 -> is_byte b2 -> is_byte b3 ->
    let dt := big_endian32 b0 b1 b2 b3 in
    let text :=
      Fmt.d0 4 (bits dt 31 25 + 1990) ++ "-" ++ Fmt.d0 2 (bits dt 24 21)
        ++ "-" ++ Fmt.d0 2 (bits dt 20 16) ++ " "
        ++ Fmt.d0 2 (bits dt 15 11) ++ ":" ++ Fmt.d0 2 (bits dt 10 5)
        ++ ":" ++ Fmt.d0 2 (bits dt 4 0 * 2) in
    _decode_datetimecompact dt
    = ((bits dt 31 25 + 1990)%Z, bits dt 24 21, bits dt 20 16,
       bits dt 15 11, bits dt 10 5, (bits dt 4 0 * 2)%Z)
    /\ decode_field "D" (b0 :: b1 :: b2 :: b3 :: rest) = Ok (VStr text, rest)
    /\ String.length text = 19%nat.
Proof.
  intros b0 b1 b2 b3 rest H0 H1 H2 H3 dt text.
  pose proof (big_endian32_range _ _ _ _ H0 H1 H2 H3) as R.
  fold dt in R.
  pose proof (_decode_datetimecompact_bits dt R) as D.
  split; [exact D|]. split.
  - unfold decode_field. simpl String.eqb. cbv iota.
    rewrite next4_bytes. fold dt. unfold bind. rewrite D. reflexivity.
  - unfold text. rewrite !string_length_app.
    assert (B : forall hi lo, (0 <= lo)%Z -> (0 <= hi - lo + 1)%Z ->
                  (0 <= bits dt hi lo < 2 ^ (hi - lo + 1))%Z).
    { intros hi lo Hlo Hw. unfold bits. apply Z.mod_pos_bound.
      apply Z.pow_pos_nonneg; lia. }
    pose proof (B 31 25 ltac:(lia) ltac:(lia)) as By.
    pose proof (B 24 21 ltac:(lia) ltac:(lia)) as Bm.
    pose proof (B 20 16 ltac:(lia) ltac:(lia)) as Bd.
    pose proof (B 15 11 ltac:(lia) ltac:(lia)) as Bh.
    pose proof (B 10 5 ltac:(lia) ltac:(lia)) as Bi.
    pose proof (B 4 0 ltac:(lia) ltac:(lia)) as Bs.
    simpl Z.sub in *. simpl Z.add in By, Bm, Bd, Bh, Bi, Bs.
    change (2 ^ 7)%Z with 128%Z in By. change (2 ^ 4)%Z with 16%Z in Bm.
    change (2 ^ 5)%Z with 32%Z in Bd, Bh, Bs.
    change (2 ^ 6)%Z with 64%Z in Bi.
    rewrite d0_4_length by lia. rewrite !d0_2_length by lia. reflexivity.
Qed.

Lemma datetimecompact_decode_witness :
  is_byte 0x3C /\ is_byte 0x8C /\ is_byte 0x61 /\ is_byte 0x00
  /\ decode_field "D" [0x3C; 0x8C; 0x61; 0x00]%Z
     = Ok (VStr "2020-04-12 12:08:00", []).
Proof.
  assert (B0 : is_byte 0x3C) by (unfold is_byte; lia).
  assert (B1 : is_byte 0x8C) by (unfold is_byte; lia).
  assert (B2 : is_byte 0x61) by (unfold is_byte; lia).
  assert (B3 : is_byte 0x00) by (unfold is_byte; lia).
  repeat (split; [assumption|]).
  exact (proj1 (proj2 (datetimecompact_decode 0x3C 0x8C 0x61 0x00 []
                         B0 B1 B2 B3))).
Defined.

End DateTimeCompact.

(** ** Chained reads *)

Section ChainedRead.

Lemma chained_loop_step : forall fuel c record full_data,
    chained_loop (S fuel) c record full_data =
      let r := replies c (List.length (sent c)) in
      let c1 := {| replies := replies c;
                   sent := sent c ++ [next_command record] |} in
      let full_data := full_data ++ fst (fst r) in
      if goes_on r then chained_loop fuel c1 record full_data
      else if reply_ok r then
        let r' := replies c (S (List.length (sent c))) in
        Ok ((full_data, snd (fst r'), snd r'),
            {| replies := replies c;
               sent := (sent c ++ [next_command record])
                         ++ [last_command record] |})
      else Ok ((full_data, snd (fst r), snd r), c1).
Proof.
  intros fuel c record full_data.
  cbn [chained_loop transmit replies sent].
  rewrite length_app, Nat.add_1_r.
  destruct (replies c (List.length (sent c))) as [[response sw1] sw2].
  cbn [goes_on reply_ok fst snd].
  destruct (success sw1 sw2); cbn [negb andb]; [|reflexivity].
  destruct (List.length response <? 256)%nat; cbn [negb].
  - destruct (replies c (S (List.length (sent c)))) as [[response' sw1'] sw2'].
    reflexivity.
  - reflexivity.
Qed.

(** When the first reply on which the loop stops is the [k]-th one from
    where the connection stands, the loop takes [k+1] iterations: it
    runs out of any smaller fuel, and with more it returns having sent
    [k+1] "next" commands, followed by one "last" command when the
    [k]-th reply had the success status and by nothing otherwise. *)
Lemma chained_loop_run : forall k c record full_data,
    (forall j, (j < k)%nat ->
               goes_on (replies c (List.length (sent c) + j)) = true) ->
    goes_on (replies c (List.length (sent c) + k)) = false ->
    (forall fuel, (fuel <= k)%nat ->
                  chained_loop fuel c record full_data = NoFuel)
    /\ forall fuel, (k < fuel)%nat ->
         exists r c',
           chained_loop fuel c record full_data = Ok (r, c')
           /\ replies c' = replies c
           /\ sent c' = sent c ++ repeat (next_command record) (S k)
                          ++ (if reply_ok
                                   (replies c (List.length (sent c) + k))
                              then [last_command record] else []).
Proof.
  induction k as [|k IH]; intros c record full_data Hgo Hstop.
  - split.
    + intros fuel Hf. replace fuel with 0%nat by lia. reflexivity.
    + intros [|fuel] Hf; [lia|]. rewrite chained_loop_step. cbv zeta.
      rewrite Nat.add_0_r in Hstop. rewrite Hstop, Nat.add_0_r.
      destruct (reply_ok (replies c (List.length (sent c)))).
      * eexists _, _. split; [reflexivity|]. split; [reflexivity|].
        cbn [sent repeat app]. rewrite <- app_assoc. reflexivity.
      * eexists _, _. split; [reflexivity|]. split; [reflexivity|].
        reflexivity.
  - pose (c1 := {| replies := replies c;
                   sent := sent c ++ [next_command record] |}).
    assert (L1 : List.length (sent c1) = S (List.length (sent c))).
    { cbn [c1 sent]. rewrite length_app. cbn [List.length]. lia. }
    assert (G0 : goes_on (replies c (List.length (sent c))) = true).
    { rewrite <- (Nat.add_0_r (List.length (sent c))). apply Hgo. lia. }
    assert (Hgo1 : forall j, (j < k)%nat ->
               goes_on (replies c1 (List.length (sent c1) + j)) = true).
    { intros j Hj. rewrite L1. cbn [c1 replies].
      replace (S (List.length (sent c)) + j)%nat
        with (List.length (sent c) + S j)%nat by lia.
      apply Hgo. lia. }
    assert (Hstop1 : goes_on (replies c1 (List.length (sent c1) + k)) = false).
    { rewrite L1. cbn [c1 replies].
      replace (S (List.length (sent c)) + k)%nat
        with (List.length (sent c) + S k)%nat by lia.
      exact Hstop. }
    split.
    + intros [|fuel] Hf; [reflexivity|].
      rewrite chained_loop_step. cbv zeta. rewrite G0.
      apply (proj1 (IH c1 record _ Hgo1 Hstop1)). lia.
    + intros [|fuel] Hf; [lia|].
      rewrite chained_loop_step. cbv zeta. rewrite G0.
      destruct (proj2 (IH c1 record
                         (full_data
                            ++ fst (fst (replies c (List.length (sent c)))))
                         Hgo1 Hstop1) fuel ltac:(lia))
        as (r & c' & E & R & S').
      exists r, c'. split; [exact E|]. split; [exact R|].
      rewrite S', L1. cbn [c1 sent replies].
      replace (S (List.length (sent c)) + k)%nat
        with (List.length (sent c) + S k)%nat by lia.
      rewrite <- app_assoc. reflexivity.
Qed.

Lemma count_command_app : forall apdu l1 l2,
    count_command apdu (l1 ++ l2)
    = (count_command apdu l1 + count_command apdu l2)%nat.
Proof.
  intros. unfold count_command. rewrite filter_app, length_app. reflexivity.
Qed.

Lemma count_command_repeat_same : forall apdu n,
    count_command apdu (repeat apdu n) = n.
Proof.
  intros apdu n. unfold count_command, list_Z_eqb.
  induction n as [|n IH]; simpl; [reflexivity|].
  destruct (list_eq_dec Z.eq_dec apdu apdu); [|contradiction].
  simpl. rewrite IH. reflexivity.
Qed.

Lemma count_command_repeat_other : forall apdu other n,
    apdu <> other -> count_command apdu (repeat other n) = 0%nat.
Proof.
  intros apdu other n H. unfold count_command, list_Z_eqb.
  induction n as [|n IH]; simpl; [reflexivity|].
  destruct (list_eq_dec Z.eq_dec apdu other); [contradiction|exact IH].
Qed.

Lemma last_is_not_next : forall record,
    last_command record <> next_command record.
Proof. intros record H. discriminate H. Qed.

End ChainedRead.

Section ChainedReadClaims.

(** C3, as the code has it: when the loop of [read_chained_data] stops
    at the [k]-th reply, the commands sent are [k+1] "next" commands,
    and then one "last" command when the loop stopped on a short chunk
    with the success status, or nothing at all when it stopped on
    another status: the function then returns from inside the loop. *)
Theorem chained_read_last_command : forall k c record fuel,
    (forall j, (j < k)%nat ->
               goes_on (replies c (List.length (sent c) + j)) = true) ->
    goes_on (replies c (List.length (sent c) + k)) = false ->
    (k < fuel)%nat ->
    exists r c',
      read_chained_data fuel c record = Ok (r, c')
      /\ sent c' = sent c ++ repeat (next_command record) (S k)
                     ++ (if reply_ok (replies c (List.length (sent c) + k))
                         then [last_command record] else [])
      /\ count_command (last_command record) (sent c')
         = (count_command (last_command record) (sent c)
            + (if reply_ok (replies c (List.length (sent c) + k))
               then 1 else 0))%nat.
Proof.
  intros k c record fuel Hgo Hstop Hf.
  destruct (proj2 (chained_loop_run k c record [] Hgo Hstop) fuel Hf)
    as (r & c' & E & _ & S').
  exists r, c'. split; [exact E|]. split; [exact S'|].
  rewrite S', !count_command_app.
  rewrite count_command_repeat_other by apply last_is_not_next.
  destruct (reply_ok (replies c (List.length (sent c) + k))).
  - change [last_command record] with (repeat (last_command record) 1).
    rewrite count_command_repeat_same. reflexivity.
  - reflexivity.
Qed.

Lemma chained_read_last_command_witness :
  exists r c',
    read_chained_data 1 always_failing [Tag.APPLIKATIONSDATEN; 0x01]
    = Ok (r, c')
    /\ sent c' = [next_command [Tag.APPLIKATIONSDATEN; 0x01]]
    /\ count_command (last_command [Tag.APPLIKATIONSDATEN; 0x01]) (sent c')
       = 0%nat.
Proof.
  apply (chained_read_last_command 0 always_failing
           [Tag.APPLIKATIONSDATEN; 0x01] 1).
  - intros j Hj. exfalso. apply (Nat.nlt_0_r j Hj).
  - reflexivity.
  - apply Nat.lt_0_1.
Defined.

(** C3 as stated fails: on a card whose first reply has status 6A82 the
    read returns after its one "next" command and no "last" command is
    sent. *)
Lemma chained_read_no_last_after_failure :
  exists c',
    read_chained_data 1 always_failing [Tag.APPLIKATIONSDATEN; 0x01]
    = Ok (([], 0x6A, 0x82), c')
    /\ sent c' = [next_command [Tag.APPLIKATIONSDATEN; 0x01]]
    /\ count_command (last_command [Tag.APPLIKATIONSDATEN; 0x01]) (sent c')
       = 0%nat.
Proof. eexists. repeat split. Qed.

(** C8, as the code has it: the loop has no bound of its own.  It ends
    when the card first answers with a short chunk or with a status
    other than success; when that is the [k]-th reply, the read takes
    exactly [k+1] iterations (it is still running after [k]) and has
    sent [k+1] "next" commands when it returns. *)
Theorem chained_read_terminates_when_card_stops : forall k c record,
    (forall j, (j < k)%nat ->
               goes_on (replies c (List.length (sent c) + j)) = true) ->
    goes_on (replies c (List.length (sent c) + k)) = false ->
    (forall fuel, (fuel <= k)%nat ->
                  read_chained_data fuel c record = NoFuel)
    /\ forall fuel, (k < fuel)%nat ->
         exists r c',
           read_chained_data fuel c record = Ok (r, c')
           /\ count_command (next_command record) (sent c')
              = (count_command (next_command record) (sent c) + S k)%nat.
Proof.
  intros k c record Hgo Hstop.
  destruct (chained_loop_run k c record [] Hgo Hstop) as [N R].
  split; [exact N|].
  intros fuel Hf. destruct (R fuel Hf) as (r & c' & E & _ & S').
  exists r, c'. split; [exact E|].
  rewrite S', !count_command_app, count_command_repeat_same.
  destruct (reply_ok (replies c (List.length (sent c) + k))).
  - change [last_command record] with (repeat (last_command record) 1).
    rewrite count_command_repeat_other.
    + rewrite Nat.add_0_r. reflexivity.
    + intros H. apply (last_is_not_next record). symmetry. exact H.
  - simpl app. change (count_command (next_command record) []) with 0%nat.
    rewrite Nat.add_0_r. reflexivity.
Qed.

Lemma three_full_then_short_goes_on : forall j,
    (j < 3)%nat ->
    goes_on (replies three_full_then_short
               (List.length (sent three_full_then_short) + j)) = true.
Proof.
  intros [|[|[|j]]] H; try reflexivity.
  exfalso. apply (Nat.nlt_0_r j).
  apply Nat.succ_lt_mono, Nat.succ_lt_mono, Nat.succ_lt_mono. exact H.
Defined.

Lemma chained_read_terminates_when_card_stops_witness :
  read_chained_data 3 three_full_then_short [Tag.APPLIKATIONSDATEN; 0x01]
  = NoFuel
  /\ exists r c',
      read_chained_data 4 three_full_then_short [Tag.APPLIKATIONSDATEN; 0x01]
      = Ok (r, c')
      /\ count_command (next_command [Tag.APPLIKATIONSDATEN; 0x01]) (sent c')
         = 4%nat.
Proof.
  destruct (chained_read_terminates_when_card_stops 3 three_full_then_short
              [Tag.APPLIKATIONSDATEN; 0x01] three_full_then_short_goes_on
              eq_refl) as [N R].
  split.
  - apply N. apply Nat.le_refl.
  - apply (R 4%nat). apply Nat.lt_succ_diag_r.
Defined.

Lemma always_full_runs_on : forall fuel c record full_data,
    replies c = replies always_full ->
    chained_loop fuel c record full_data = NoFuel.
Proof.
  induction fuel as [|fuel IH]; intros c record full_data R;
    [reflexivity|].
  rewrite chained_loop_step. cbv zeta. rewrite R.
  change (goes_on (replies always_full (List.length (sent c)))) with true.
  cbv iota. apply IH. reflexivity.
Qed.

(** C8 as stated fails: on a card that answers every command with a
    full chunk of 256 bytes and the success status, the read is still
    in its loop after any number of "next" commands. *)
Lemma chained_read_unbounded_on_full_chunks :
  ~ exists fuel,
      read_chained_data fuel always_full [Tag.APPLIKATIONSDATEN; 0x01]
      <> NoFuel.
Proof.
  intros [fuel H]. apply H. apply always_full_runs_on. reflexivity.
Qed.

End ChainedReadClaims.

(** ** Leaves shorter than their field definition *)

Section TruncatedLeaf.
Import BerTlv VdvKaDecoder Render.
Local Open Scope string_scope.

Lemma _fields_wf :
  forallb (fun kv => fields_wf (Fmt.split "|" (snd kv))) _fields = true.
Proof. vm_compute. reflexivity. Qed.

Lemma fields_get_wf : forall tag fdef,
    fields_get tag = Ok fdef -> fields_wf (Fmt.split "|" fdef) = true.
Proof.
  intros tag fdef H. unfold fields_get in H.
  destruct (find (fun kv => (fst kv =? tag)%Z) _fields) as [kv|] eqn:F;
    [|discriminate].
  injection H as <-. apply find_some in F. destruct F as [F _].
  pose proof _fields_wf as W. rewrite forallb_forall in W.
  apply (W kv F).
Qed.

Ltac known_type H :=
  unfold type_width in H;
  repeat match type of H with
         | (if (?t =? ?s) then _ else _) = _ =>
             destruct (String.eqb_spec t s); [subst t|]
         end;
  try discriminate.

(** A field of fixed width on too few bytes. *)
Lemma decode_field_short : forall type w idata,
    type_width type = Some w ->
    (List.length idata < w)%nat ->
    decode_field type idata = Raise StopIteration.
Proof.
  intros type w idata T L. known_type T; injection T as <-.
  - destruct idata as [|b0 idata]; [reflexivity|simpl in L; lia].
  - destruct idata as [|b0 [|b1 idata]]; try reflexivity. simpl in L; lia.
  - destruct idata as [|b0 [|b1 [|b2 idata]]]; try reflexivity.
    simpl in L; lia.
  - destruct idata as [|b0 [|b1 [|b2 [|b3 idata]]]]; try reflexivity.
    simpl in L; lia.
  - destruct idata as [|b0 [|b1 [|b2 [|b3 [|b4 [|b5 [|b6 [|b7 idata]]]]]]]];
      try reflexivity.
    simpl in L; lia.
  - destruct idata as [|b0 [|b1 idata]]; try reflexivity. simpl in L; lia.
  - destruct idata as [|b0 [|b1 [|b2 [|b3 idata]]]]; try reflexivity.
    simpl in L; lia.
  - destruct idata as [|b0 [|b1 [|b2 [|b3 idata]]]]; try reflexivity.
    simpl in L; lia.
  - lia.
Qed.

(** A field of fixed width on enough bytes takes its width. *)
Lemma decode_field_enough : forall type w idata,
    type_width type = Some w ->
    type <> "S" ->
    (w <= List.length idata)%nat ->
    exists val idata',
      decode_field type idata = Ok (val, idata')
      /\ List.length idata' = (List.length idata - w)%nat.
Proof.
  intros type w idata T NS L. known_type T; injection T as <-.
  - destruct idata as [|b0 idata]; [simpl in L; lia|].
    eexists _, _. split; [reflexivity|simpl; lia].
  - destruct idata as [|b0 [|b1 idata]]; try (simpl in L; lia).
    eexists _, _. split; [reflexivity|simpl; lia].
  - destruct idata as [|b0 [|b1 [|b2 idata]]]; try (simpl in L; lia).
    eexists _, _. split; [reflexivity|simpl; lia].
  - destruct idata as [|b0 [|b1 [|b2 [|b3 idata]]]]; try (simpl in L; lia).
    eexists _, _. split; [reflexivity|simpl; lia].
  - destruct idata as [|b0 [|b1 [|b2 [|b3 [|b4 [|b5 [|b6 [|b7 idata]]]]]]]];
      try (simpl in L; lia).
    eexists _, _. split; [reflexivity|simpl; lia].
  - destruct idata as [|b0 [|b1 idata]]; try (simpl in L; lia).
    eexists _, _. split; [reflexivity|simpl; lia].
  - destruct idata as [|b0 [|b1 [|b2 [|b3 idata]]]]; try (simpl in L; lia).
    eexists _, _. split; [reflexivity|simpl; lia].
  - destruct idata as [|b0 [|b1 [|b2 [|b3 idata]]]]; try (simpl in L; lia).
    eexists _, _. split; [reflexivity|simpl; lia].
  - contradiction.
Qed.

Lemma decode_fields_short : forall fields idata result,
    fields_wf fields = true ->
    (List.length idata < fields_width fields)%nat ->
    decode_fields fields idata result = Raise StopIteration.
Proof.
  induction fields as [|field rest IH]; intros idata result W L;
    [simpl in L; lia|].
  cbn [fields_wf fields_width decode_fields] in *.
  destruct (Fmt.split ":" field) as [|type [|name [|? ?]]];
    try discriminate.
  destruct (type_width type) as [w|] eqn:T; [|discriminate].
  apply andb_prop in W. destruct W as [WS W].
  destruct (String.eqb_spec type "S") as [->|NS].
  - simpl in WS. destruct rest; [|discriminate].
    injection T as <-. simpl in L. lia.
  - destruct (Nat.lt_ge_cases (List.length idata) w) as [Sh|En].
    + rewrite (decode_field_short _ _ _ T Sh). reflexivity.
    + destruct (decode_field_enough _ _ _ T NS En) as (val & idata' & E & Ll).
      rewrite E. cbn [bind]. apply IH; [exact W|lia].
Qed.

(** The decoder on a leaf shorter than its field definition:
    [StopIteration], which [decode] does not catch. *)
Lemma decode_short : forall tag fdef data,
    fields_get tag = Ok fdef ->
    (List.length data < required_bytes fdef)%nat ->
    decode tag data = Raise StopIteration.
Proof.
  intros tag fdef data F L. unfold decode. rewrite F. cbn [bind].
  unfold _decode_internal.
  rewrite decode_fields_short; [reflexivity|exact (fields_get_wf _ _ F)|exact L].
Qed.

Lemma ints_raw : forall bytes, ints (raw bytes) = Ok bytes.
Proof.
  induction bytes as [|b bytes IH]; [reflexivity|].
  change (ints (raw (b :: bytes)))
    with (ns <- ints (raw bytes) ;; Ok (b :: ns)).
  rewrite IH. reflexivity.
Qed.

Lemma raw_not_nested : forall bytes, _is_nested_tlv (raw bytes) = false.
Proof. intros [|b bytes]; reflexivity. Qed.

Lemma _get_tag_name_ok : forall tag, exists nm, _get_tag_name tag = Ok nm.
Proof.
  intros tag. unfold _get_tag_name, Tag.name.
  destruct (find (fun m => (snd m =? tag)%Z) Tag.members); simpl; eauto.
Qed.

Lemma for_each_app : forall body l1 l2,
    for_each body (l1 ++ l2)
    = seq_print (for_each body l1) (for_each body l2).
Proof.
  intros body l1 l2. induction l1 as [|x l1 IH]; simpl.
  - destruct (for_each body l2); reflexivity.
  - rewrite IH. unfold seq_print.
    destruct (body x) as [o1 [[]| |]]; simpl; try reflexivity.
    destruct (for_each body l1) as [o2 [[]| |]]; simpl; try reflexivity.
    rewrite app_assoc. reflexivity.
Qed.

(** C2, as the code has it: in a walk with details, a leaf that has a
    field definition and fewer bytes than the definition takes gets its
    line of raw hex, after the lines of the items before it; then the
    decoder raises [StopIteration], which nothing in the walk catches:
    no field of that leaf is printed, none of the items after it is
    rendered, and the walk ends with that exception. *)
Theorem short_leaf_aborts_walk :
  forall with_names indent tag length bytes fdef pre post out_pre,
    fields_get tag = Ok fdef ->
    (List.length bytes < required_bytes fdef)%nat ->
    _pretty_print_internal pre with_names true indent = (out_pre, Ok tt) ->
    exists tag_name,
      (if with_names then _get_tag_name tag else Ok (Fmt.x0 2 tag))
      = Ok tag_name
      /\ _pretty_print_internal
           (pre ++ ENode tag length (raw bytes) :: post)
           with_names true indent
         = ((out_pre ++ [hex_line indent tag_name bytes])%list,
            Raise StopIteration).
Proof.
  intros with_names indent tag len bytes fdef pre post out_pre F L P.
  assert (N : exists tag_name,
             (if with_names then _get_tag_name tag else Ok (Fmt.x0 2 tag))
             = Ok tag_name).
  { destruct with_names; [apply _get_tag_name_ok|eauto]. }
  destruct N as [tag_name N]. exists tag_name. split; [exact N|].
  unfold _pretty_print_internal in *. rewrite for_each_app, P.
  cbn [for_each print_tlv]. rewrite N, raw_not_nested.
  cbn [eval_then]. unfold print_leaf.
  rewrite ints_raw. cbn [eval_then].
  rewrite (decode_short _ _ _ F L). reflexivity.
Qed.

Lemma short_leaf_aborts_walk_witness :
  fields_get Tag.APPLIKATIONSDATEN_DYNAMISCH
  = Ok "1:appStatus|1:appSynchronNummer"
  /\ (List.length [0x05%Z] < required_bytes "1:appStatus|1:appSynchronNummer")%nat
  /\ _pretty_print_internal [ENode 0xC0 1 [EInt 0x07]] true true 0
     = (["c0 (ZEIGER): 07"], Ok tt)
  /\ exists tag_name,
      _get_tag_name Tag.APPLIKATIONSDATEN_DYNAMISCH = Ok tag_name
      /\ _pretty_print_internal
           ([ENode 0xC0 1 [EInt 0x07]]
              ++ ENode Tag.APPLIKATIONSDATEN_DYNAMISCH 1 (raw [0x05%Z])
              :: [ENode 0xC7 1 [EInt 0x41]])
           true true 0
         = ((["c0 (ZEIGER): 07"] ++ [hex_line 0 tag_name [0x05%Z]])%list,
            Raise StopIteration).
Proof.
  split; [reflexivity|]. split; [apply Nat.lt_succ_diag_r|].
  split; [reflexivity|].
  apply (short_leaf_aborts_walk true 0 Tag.APPLIKATIONSDATEN_DYNAMISCH 1
           [0x05%Z] "1:appStatus|1:appSynchronNummer"
           [ENode 0xC0 1 [EInt 0x07]] [ENode 0xC7 1 [EInt 0x41]]
           ["c0 (ZEIGER): 07"]).
  - reflexivity.
  - apply Nat.lt_succ_diag_r.
  - reflexivity.
Defined.

(** C2 as stated fails: the first leaf has one byte where its field
    definition takes two; its hex line is printed, the exception leaves
    the walk and [pretty_print_block], and the second leaf is not
    rendered. *)
Lemma short_leaf_exception_escapes :
  _parse_internal [0x80; 0x01; 0x05; 0xC0; 0x01; 0x07]%Z false
  = Ok [ENode 0x80 1 [EInt 0x05]; ENode 0xC0 1 [EInt 0x07]]
  /\ pretty_print [ENode 0x80 1 [EInt 0x05]; ENode 0xC0 1 [EInt 0x07]]
       true true
     = (["80 (APPLIKATIONSDATEN_DYNAMISCH): 05"], Raise StopIteration)
  /\ pretty_print_block [0x80; 0x01; 0x05; 0xC0; 0x01; 0x07]%Z 0x90 0x00
     = (["80 (APPLIKATIONSDATEN_DYNAMISCH): 05"], Raise StopIteration).
Proof. repeat split. Qed.

End TruncatedLeaf.

(** ** The TLV-EFS heuristic *)

Section TlvEfsHeuristic.
Import BerTlv Render.
Local Open Scope string_scope.

(** No child BERECHTIGUNG: the [AttributeError] is caught and the
    heuristic says no. *)
Lemma is_tlv_efs_without_berechtigung : forall t,
    get_child t Tag.BERECHTIGUNG = Ok None ->
    is_tlv_efs t = Ok false.
Proof.
  intros t H. unfold is_tlv_efs, tlv_efs_test. rewrite H. reflexivity.
Qed.

(** No child BERECHTIGUNG_SEPARATE_DATEN below it: the same. *)
Lemma is_tlv_efs_without_separate_daten : forall t t1,
    get_child t Tag.BERECHTIGUNG = Ok (Some t1) ->
    get_child t1 Tag.BERECHTIGUNG_SEPARATE_DATEN = Ok None ->
    is_tlv_efs t = Ok false.
Proof.
  intros t t1 H1 H2. unfold is_tlv_efs, tlv_efs_test.
  rewrite H1. cbn [bind]. rewrite H2. reflexivity.
Qed.

(** Both children there but no leaf BERECHTIGUNG_PRODUKTSPEZIFISCH:
    [get_value] returns [None], subscripting it is a [TypeError], and
    the handler is for [AttributeError] only. *)
Lemma is_tlv_efs_without_leaf : forall t t1 t2,
    get_child t Tag.BERECHTIGUNG = Ok (Some t1) ->
    get_child t1 Tag.BERECHTIGUNG_SEPARATE_DATEN = Ok (Some t2) ->
    get_value t2 Tag.BERECHTIGUNG_PRODUKTSPEZIFISCH = Ok None ->
    is_tlv_efs t = Raise TypeError.
Proof.
  intros t t1 t2 H1 H2 H3. unfold is_tlv_efs, tlv_efs_test.
  rewrite H1. cbn [bind]. rewrite H2. cbn [bind]. rewrite H3. reflexivity.
Qed.

(** C7 on a block BERECHTIGUNG > BERECHTIGUNG_SEPARATE_DATEN > ZEIGER,
    where the last step of the path, the leaf
    BERECHTIGUNG_PRODUKTSPEZIFISCH, is absent: [pretty_print_block]
    prints nothing and ends with a [TypeError], although the tree of
    the block renders without error. *)
Theorem pretty_print_block_without_leaf_raises :
  _parse_internal [0xE8; 0x05; 0xEA; 0x03; 0xC0; 0x01; 0x07]%Z false
  = Ok [ENode 0xE8 5 [ENode 0xEA 3 [ENode 0xC0 1 [EInt 0x07]]]]
  /\ is_tlv_efs [ENode 0xE8 5 [ENode 0xEA 3 [ENode 0xC0 1 [EInt 0x07]]]]
     = Raise TypeError
  /\ pretty_print_block [0xE8; 0x05; 0xEA; 0x03; 0xC0; 0x01; 0x07]%Z 0x90 0x00
     = ([], Raise TypeError)
  /\ pretty_print [ENode 0xE8 5 [ENode 0xEA 3 [ENode 0xC0 1 [EInt 0x07]]]]
       true true
     = (["e8 (BERECHTIGUNG):"; "  ea (BERECHTIGUNG_SEPARATE_DATEN):";
         "    c0 (ZEIGER): 07"], Ok tt).
Proof. repeat split. Qed.

End TlvEfsHeuristic.

(** ** Encoding and parsing *)

Section RoundTrip.
Import BerTlv BerTlvFacts.

Lemma read_value_exact : forall value rest,
    read_value (Z.of_nat (List.length value)) (value ++ rest)
    = Ok (value, rest).
Proof.
  induction value as [|b value IH]; intros rest.
  - destruct rest; reflexivity.
  - cbn [List.length app read_value].
    destruct (Z.leb_spec (Z.of_nat (S (List.length value))) 0) as [H|H];
      [lia|].
    replace (Z.of_nat (S (List.length value)) - 1)
      with (Z.of_nat (List.length value)) by lia.
    rewrite IH. reflexivity.
Qed.

Lemma short_length_byte : forall l,
    0 <= l < 128 -> Z.land l 128 = 0.
Proof.
  intros l H. change 128 with (2 ^ 7). rewrite land_pow2 by lia.
  replace (Z.testbit l 7) with false; [reflexivity|].
  symmetry. apply Z.testbit_false; [lia|].
  rewrite Z.div_small by (change (2 ^ 7) with 128; lia). reflexivity.
Qed.

Lemma read_tlv_short : forall tag value rest,
    (List.length value < 128)%nat ->
    read_tlv (tag :: Z.of_nat (List.length value) :: value ++ rest)
    = Ok ((tag, Z.of_nat (List.length value), value), rest).
Proof.
  intros tag value rest H. rewrite read_tlv_eq. unfold read_length.
  rewrite short_length_byte by lia. cbn [Z.eqb bind].
  rewrite read_value_exact. reflexivity.
Qed.

Lemma encode_raw : forall value,
    forallb is_int value = true -> raw (flat_map encode value) = value.
Proof.
  induction value as [|[b|t l v] value IH]; intros H; simpl in H;
    [reflexivity| |discriminate].
  cbn [flat_map encode app raw map]. f_equal. apply IH. exact H.
Qed.

Lemma tree_of_encode : forall n tree hack,
    (List.length (flat_map encode tree) <= n)%nat ->
    forallb (short_form hack) tree = true ->
    tree_of (flat_map encode tree) hack = tree.
Proof.
  induction n as [|n IH]; intros tree hack Hn W.
  - destruct tree as [|[b|t l v] tree]; [reflexivity| |];
      simpl in Hn; lia.
  - destruct tree as [|[b|t l v] tree]; [reflexivity|discriminate|].
    cbn [forallb short_form] in W.
    apply andb_prop in W. destruct W as [W Wt].
    apply andb_prop in W. destruct W as [W Wv].
    apply andb_prop in W. destruct W as [W Wl].
    apply andb_prop in W. destruct W as [W0 W1].
    apply Z.leb_le in W0. apply Z.ltb_lt in W1. apply Z.eqb_eq in Wl.
    cbn [flat_map encode app] in Hn |- *.
    cbn [List.length] in Hn. rewrite length_app in Hn.
    rewrite tree_of_eq. rewrite Wl at 1.
    rewrite read_tlv_short by lia. rewrite <- Wl.
    rewrite (IH tree) by (auto; lia).
    destruct (is_constructed t hack).
    + rewrite (IH v) by (auto; lia). reflexivity.
    + rewrite encode_raw by exact Wv. reflexivity.
Qed.

(** X1: parsing is the inverse of the short-form encoding.  For a tree
    whose nodes have the shape the mode gives them (raw bytes under leaf
    tags, nodes under constructed tags) and lengths below 128 that count
    the bytes of the values, parsing the bytes of the tree returns the
    tree. *)
Theorem parse_encode : forall tree hack,
    forallb (short_form hack) tree = true ->
    _parse_internal (flat_map encode tree) hack = Ok tree.
Proof.
  intros tree hack W. rewrite _parse_internal_ok. f_equal.
  apply (tree_of_encode (List.length (flat_map encode tree))); auto.
Qed.

Lemma parse_encode_witness :
  forallb (short_form false)
    [ENode 0xE8 8 [ENode 0x84 2 [EInt 1; EInt 7];
                   ENode 0xEA 2 [ENode 0xC0 0 []]];
     ENode 0xED 1 [EInt 0xC0]] = true
  /\ _parse_internal
       [0xE8; 0x08; 0x84; 0x02; 0x01; 0x07; 0xEA; 0x02; 0xC0; 0x00;
        0xED; 0x01; 0xC0] false
     = Ok [ENode 0xE8 8 [ENode 0x84 2 [EInt 1; EInt 7];
                         ENode 0xEA 2 [ENode 0xC0 0 []]];
           ENode 0xED 1 [EInt 0xC0]].
Proof.
  split; [reflexivity|].
  apply (parse_encode
           [ENode 0xE8 8 [ENode 0x84 2 [EInt 1; EInt 7];
                          ENode 0xEA 2 [ENode 0xC0 0 []]];
            ENode 0xED 1 [EInt 0xC0]] false).
  reflexivity.
Defined.

End RoundTrip.

Section LongForm.
Import BerTlv BerTlvFacts.

Lemma lor_shift_byte : forall acc b,
    is_byte b -> Z.lor (Z.shiftl acc 8) b = acc * 256 + b.
Proof.
  intros acc b Hb. unfold is_byte in Hb.
  rewrite Z.shiftl_mul_pow2 by lia.
  assert (L : Z.land (acc * 2 ^ 8) b = 0).
  { apply Z.bits_inj'. intros n Hn. rewrite Z.land_spec, Z.bits_0.
    destruct (Z.lt_ge_cases n 8) as [Lo|Hi].
    - rewrite Z.mul_pow2_bits_low by lia. reflexivity.
    - replace (Z.testbit b n) with false; [apply andb_false_r|].
      symmetry. destruct (Z.eq_dec b 0) as [->|Nz]; [apply Z.bits_0|].
      apply Z.bits_above_log2; [lia|].
      apply Z.lt_le_trans with 8; [|exact Hi].
      apply Z.log2_lt_pow2; [lia|]. change (2 ^ 8) with 256. lia. }
  rewrite <- Z.lxor_lor by exact L.
  rewrite <- Z.add_nocarry_lxor by exact L. reflexivity.
Qed.

Lemma read_long_length_be : forall octets acc rest,
    Forall is_byte octets ->
    read_long_length (List.length octets) acc (octets ++ rest)
    = Ok (fold_left (fun a b => a * 256 + b) octets acc, rest).
Proof.
  induction octets as [|b octets IH]; intros acc rest B; [reflexivity|].
  inversion B as [|? ? Hb B']; subst.
  change (read_long_length (List.length (b :: octets)) acc
            ((b :: octets) ++ rest))
    with (read_long_length (List.length octets)
            (Z.lor (Z.shiftl acc 8) b) (octets ++ rest)).
  rewrite lor_shift_byte by exact Hb. rewrite IH by exact B'. reflexivity.
Qed.

Lemma long_length_byte : forall n,
    (n <= 127)%nat ->
    (Z.land (128 + Z.of_nat n) 128 =? 0) = false
    /\ Z.to_nat (Z.land (128 + Z.of_nat n) 127) = n.
Proof.
  intros n H.
  assert (A : forallb (fun k =>
                negb (Z.land (128 + Z.of_nat k) 128 =? 0)
                && Nat.eqb (Z.to_nat (Z.land (128 + Z.of_nat k) 127)) k)
                (seq 0 128) = true) by (vm_compute; reflexivity).
  rewrite forallb_forall in A. specialize (A n).
  apply andb_prop in A; [|apply in_seq; lia].
  destruct A as [A1 A2]. apply negb_true_iff in A1. apply Nat.eqb_eq in A2.
  split; assumption.
Qed.

(** X2: the long form of a length.  A length byte 0x80 + n (n up to
    127) followed by n octets gives the length that the octets denote
    as a big-endian number, and that many value bytes are read after
    them. *)
Theorem read_tlv_long_form_length : forall tag octets value rest,
    Forall is_byte octets ->
    (List.length octets <= 127)%nat ->
    Z.of_nat (List.length value) = be_value octets ->
    read_tlv (tag :: (0x80 + Z.of_nat (List.length octets))
                :: octets ++ value ++ rest)
    = Ok ((tag, be_value octets, value), rest).
Proof.
  intros tag octets value rest B L V. rewrite read_tlv_eq.
  unfold read_length.
  destruct (long_length_byte _ L) as [L1 L2].
  change 0x80 with 128 in *. change 0x7f with 127. rewrite L1, L2.
  rewrite read_long_length_be by exact B. cbn [bind].
  fold (be_value octets). rewrite <- V.
  rewrite read_value_exact. reflexivity.
Qed.

Lemma read_tlv_long_form_length_witness :
  Forall is_byte [0x01; 0x00]
  /\ read_tlv (0xC7 :: 0x82 :: [0x01; 0x00] ++ repeat 0x41 256 ++ [0xC0; 0x00])
     = Ok ((0xC7, 256, repeat 0x41 256), [0xC0; 0x00]).
Proof.
  assert (B : Forall is_byte [0x01; 0x00])
    by (repeat constructor; unfold is_byte; lia).
  split; [exact B|].
  apply (read_tlv_long_form_length 0xC7 [0x01; 0x00] (repeat 0x41 256)
           [0xC0; 0x00] B).
  - apply Nat.leb_le. reflexivity.
  - reflexivity.
Defined.

End LongForm.

(** ** Adding blocks *)

Section Concatenation.
Import BerTlv BerTlvFacts.

Lemma tree_of_app : forall d1 d2 hack,
    complete d1 ->
    tree_of (d1 ++ d2) hack = (tree_of d1 hack ++ tree_of d2 hack)%list.
Proof.
  intros d1 d2 hack C.
  induction C as [|idata [[tag len] value] rest E C IH].
  - rewrite (tree_of_eq [] hack). reflexivity.
  - rewrite (tree_of_eq (idata ++ d2)), (tree_of_eq idata).
    rewrite (read_tlv_app _ _ _ d2 E), E, IH. reflexivity.
Qed.

Lemma init_tree_of : forall data, init data = Ok (tree_of data false).
Proof.
  intros [|b data]; [reflexivity|]. apply _parse_internal_ok.
Qed.

Lemma init_list_nodes : forall tree,
    forallb is_node tree = true -> init_list tree = Ok tree.
Proof.
  intros [|[b|t l v] tree] H; [reflexivity|discriminate|reflexivity].
Qed.

(** X3: adding a list of bytes to a parsed block appends the tree of
    these bytes to the tree of the block, without parsing anything
    again; when the block was parsed from complete elements, the sum is
    the tree of the two byte lists put together. *)
Theorem add_bytes_appends_tree : forall d1 d2,
    exists t1 t2,
      init d1 = Ok t1
      /\ init d2 = Ok t2
      /\ __add__bytes t1 d2 = Ok (t1 ++ t2)%list
      /\ (complete d1 -> init (d1 ++ d2) = Ok (t1 ++ t2)%list).
Proof.
  intros d1 d2. exists (tree_of d1 false), (tree_of d2 false).
  split; [apply init_tree_of|]. split; [apply init_tree_of|]. split.
  - unfold __add__bytes, __add__. rewrite init_tree_of. cbn [bind].
    apply init_list_nodes. rewrite forallb_app.
    rewrite (tree_of_nodes (List.length d1)) by lia.
    rewrite (tree_of_nodes (List.length d2)) by lia. reflexivity.
  - intros C. rewrite init_tree_of, tree_of_app by exact C. reflexivity.
Qed.

Lemma add_bytes_appends_tree_witness :
  complete [0xC0; 0x01; 0x07]
  /\ init ([0xC0; 0x01; 0x07] ++ [0x42; 0x00])
     = Ok [ENode 0xC0 1 [EInt 0x07]; ENode 0x42 0 []].
Proof.
  assert (C : complete [0xC0; 0x01; 0x07]).
  { apply (complete_cons _ (0xC0, 1, [0x07]) []);
      [reflexivity|apply complete_nil]. }
  split; [exact C|].
  destruct (add_bytes_appends_tree [0xC0; 0x01; 0x07] [0x42; 0x00])
    as (t1 & t2 & I1 & I2 & _ & A).
  injection I1 as <-. injection I2 as <-. exact (A C).
Defined.

End Concatenation.

(** ** Navigation in parsed trees *)

Section ParsedNavigation.
Import BerTlv BerTlvFacts.

Lemma tree_of_parsed_nodes : forall n data hack,
    (List.length data <= n)%nat ->
    Forall is_byte data ->
    Forall (parsed_node hack) (tree_of data hack).
Proof.
  induction n as [|n IH]; intros data hack Hn B; rewrite tree_of_eq.
  - destruct data; [constructor|simpl in Hn; lia].
  - destruct (read_tlv data) as [[[[tag len] value] rest]| |] eqn:E;
      try constructor.
    + destruct (read_tlv_bytes _ _ _ _ _ B E) as (Bv & _).
      exists tag, len, value. split; [exact Bv|reflexivity].
    + pose proof (read_tlv_shorter _ _ _ _ _ E) as Hl.
      destruct (read_tlv_bytes _ _ _ _ _ B E) as (_ & Br & _).
      apply IH; [lia|exact Br].
Qed.

Lemma not_nested_nodes_empty : forall value,
    forallb is_node value = true ->
    _is_nested_tlv value = false -> value = [].
Proof.
  intros [|[b|t l v] value] N H; [reflexivity|discriminate|discriminate].
Qed.

Lemma int_items_raw : forall bytes, int_items (raw bytes) = bytes.
Proof.
  induction bytes as [|b bytes IH]; [reflexivity|].
  cbn [raw map int_items flat_map app]. f_equal. exact IH.
Qed.

Lemma is_byte_range : forall bytes,
    Forall is_byte bytes ->
    forallb (fun n => (0 <=? n) && (n <? 256)) bytes = true.
Proof.
  induction 1 as [|b bytes Hb _ IH]; [reflexivity|].
  unfold is_byte in Hb. cbn [forallb]. rewrite IH, andb_true_r.
  apply andb_true_intro. split; [apply Z.leb_le|apply Z.ltb_lt]; lia.
Qed.

Lemma py_bytes_leaf : forall hack t l value,
    parsed_node hack (ENode t l value) ->
    _is_nested_tlv value = false ->
    py_bytes value = Ok (int_items value).
Proof.
  intros hack t l value (t' & l' & v & Bv & E) N.
  injection E as -> -> ->.
  destruct (is_constructed t' hack).
  - rewrite (not_nested_nodes_empty (tree_of v hack)); [reflexivity| |exact N].
    apply (tree_of_nodes (List.length v)). lia.
  - unfold py_bytes. rewrite ints_raw. cbn [bind].
    rewrite is_byte_range by exact Bv. rewrite int_items_raw. reflexivity.
Qed.

Lemma get_value_first_leaf : forall hack tree t,
    Forall (parsed_node hack) tree ->
    get_value tree t = Ok (first_leaf tree t).
Proof.
  intros hack tree t P. unfold first_leaf.
  induction P as [|e tree Pe P IH]; [reflexivity|].
  destruct e as [b|tag len value].
  - destruct Pe as (? & ? & ? & _ & E). discriminate E.
  - cbn [get_value find leaf_with_tag].
    destruct ((tag =? t) && negb (_is_nested_tlv value)) eqn:C.
    + apply andb_prop in C. destruct C as [_ C].
      apply negb_true_iff in C.
      rewrite (py_bytes_leaf _ _ _ _ Pe C). reflexivity.
    + exact IH.
Qed.

(** X4: on a tree parsed from bytes [get_value] never raises: it
    returns the bytes of the first direct child with the tag whose value
    is not a nested sequence, and [None] when there is none; children
    with the tag that hold a nested sequence are passed over. *)
Theorem get_value_parsed : forall data hack tree t,
    Forall is_byte data ->
    _parse_internal data hack = Ok tree ->
    get_value tree t = Ok (first_leaf tree t).
Proof.
  intros data hack tree t B P. rewrite _parse_internal_ok in P.
  injection P as <-. apply (get_value_first_leaf hack).
  apply (tree_of_parsed_nodes (List.length data)); auto.
Qed.

Lemma get_value_parsed_witness :
  Forall is_byte [0xC0; 0x02; 0xC0; 0x00; 0xE2; 0x03; 0xC0; 0x01; 0x07;
                  0xC0; 0x01; 0x09]
  /\ get_value
       [ENode 0xC0 2 [EInt 0xC0; EInt 0x00];
        ENode 0xE2 3 [ENode 0xC0 1 [EInt 0x07]];
        ENode 0xC0 1 [EInt 0x09]] 0xC0
     = Ok (Some [0xC0; 0x00]).
Proof.
  assert (B : Forall is_byte [0xC0; 0x02; 0xC0; 0x00; 0xE2; 0x03; 0xC0;
                              0x01; 0x07; 0xC0; 0x01; 0x09])
    by (repeat constructor; unfold is_byte; lia).
  split; [exact B|].
  exact (get_value_parsed _ false
           [ENode 0xC0 2 [EInt 0xC0; EInt 0x00];
            ENode 0xE2 3 [ENode 0xC0 1 [EInt 0x07]];
            ENode 0xC0 1 [EInt 0x09]] 0xC0 B eq_refl).
Defined.

(** X5: navigation stays within parsed trees.  What [get_nth_child]
    returns on a tree parsed from [data] is itself the tree that the
    parser returns, in the same mode, on the value bytes of that child,
    so [get_child], [get_nth_child] and [get_value] apply to it as to
    the tree one started from. *)
Theorem get_nth_child_parsed : forall data hack tree t no sub,
    Forall is_byte data ->
    _parse_internal data hack = Ok tree ->
    get_nth_child tree t no = Ok (Some sub) ->
    exists bytes,
      Forall is_byte bytes /\ _parse_internal bytes hack = Ok sub.
Proof.
  intros data hack tree t no sub B P G. rewrite _parse_internal_ok in P.
  injection P as <-.
  pose proof (tree_of_parsed_nodes (List.length data) data hack
                (Nat.le_refl _) B) as PN.
  unfold get_nth_child in G.
  rewrite nth_child_loop_rule in G
    by (try apply (tree_of_nodes (List.length data)); lia).
  rewrite Nat.sub_0_r in G. injection G as G.
  destruct (nth_error (filter (tag_is t) (tree_of data hack)) no)
    as [[b|tag len value]|] eqn:N; try discriminate.
  destruct (_is_nested_tlv value) eqn:Nest; [|discriminate].
  injection G as ->.
  apply nth_error_In, filter_In in N. destruct N as [N _].
  rewrite Forall_forall in PN.
  destruct (PN _ N) as (t' & l' & v & Bv & E). injection E as -> -> ->.
  destruct (is_constructed t' hack).
  - exists v. split; [exact Bv|apply _parse_internal_ok].
  - rewrite raw_not_nested in Nest. discriminate.
Qed.

Lemma get_nth_child_parsed_witness :
  Forall is_byte [0xE9; 0x03; 0xC0; 0x01; 0x07; 0xE9; 0x03; 0xC0; 0x01; 0x09]
  /\ exists bytes,
      Forall is_byte bytes
      /\ _parse_internal bytes false = Ok [ENode 0xC0 1 [EInt 0x09]].
Proof.
  assert (B : Forall is_byte [0xE9; 0x03; 0xC0; 0x01; 0x07; 0xE9; 0x03;
                              0xC0; 0x01; 0x09])
    by (repeat constructor; unfold is_byte; lia).
  split; [exact B|].
  apply (get_nth_child_parsed _ false
           [ENode 0xE9 3 [ENode 0xC0 1 [EInt 0x07]];
            ENode 0xE9 3 [ENode 0xC0 1 [EInt 0x09]]] 0xE9 1 _ B eq_refl).
  reflexivity.
Defined.

End ParsedNavigation.

(** ** What the field decoder returns *)

Section DecodedFields.
Import VdvKaDecoder.
Local Open Scope string_scope.

Lemma Forall_skipn_bytes : forall n (l : list Z),
    Forall is_byte l -> Forall is_byte (skipn n l).
Proof.
  induction n as [|n IH]; intros l B; [exact B|].
  destruct l as [|b l]; [constructor|].
  inversion B; subst. apply IH. assumption.
Qed.

Ltac type_cases H :=
  unfold type_width in H;
  repeat match type of H with
         | (if (?t =? ?s) then _ else _) = _ =>
             destruct (String.eqb_spec t s); [subst t|]
         end;
  try discriminate.

(** A field of fixed width takes the first bytes and leaves the rest. *)
Lemma decode_field_skipn : forall type w idata,
    type_width type = Some w ->
    type <> "S" ->
    (w <= List.length idata)%nat ->
    exists val, decode_field type idata = Ok (val, skipn w idata).
Proof.
  intros type w idata T NS L. type_cases T; injection T as <-.
  - destruct idata as [|b0 idata]; [simpl in L; lia|].
    eexists. reflexivity.
  - destruct idata as [|b0 [|b1 idata]]; try (simpl in L; lia).
    eexists. reflexivity.
  - destruct idata as [|b0 [|b1 [|b2 idata]]]; try (simpl in L; lia).
    eexists. reflexivity.
  - destruct idata as [|b0 [|b1 [|b2 [|b3 idata]]]]; try (simpl in L; lia).
    eexists. reflexivity.
  - destruct idata as [|b0 [|b1 [|b2 [|b3 [|b4 [|b5 [|b6 [|b7 idata]]]]]]]];
      try (simpl in L; lia).
    eexists. reflexivity.
  - destruct idata as [|b0 [|b1 idata]]; try (simpl in L; lia).
    eexists. reflexivity.
  - destruct idata as [|b0 [|b1 [|b2 [|b3 idata]]]]; try (simpl in L; lia).
    eexists. reflexivity.
  - destruct idata as [|b0 [|b1 [|b2 [|b3 idata]]]]; try (simpl in L; lia).
    eexists. reflexivity.
  - contradiction.
Qed.

Lemma chr_byte : forall b,
    is_byte b ->
    chr b = Ok (ascii_of_N (Z.to_N b))
    /\ Z.of_N (N_of_ascii (ascii_of_N (Z.to_N b))) = b.
Proof.
  intros b Hb. unfold is_byte in Hb. unfold chr.
  replace ((0 <=? b)%Z && (b <? 256)%Z) with true.
  - split; [reflexivity|]. rewrite N_ascii_embedding by lia. lia.
  - symmetry. apply andb_true_intro.
    split; [apply Z.leb_le|apply Z.ltb_lt]; lia.
Qed.

Lemma chr_join_bytes : forall bytes,
    Forall is_byte bytes ->
    exists s, chr_join bytes = Ok s /\ codes s = bytes.
Proof.
  induction 1 as [|b bytes Hb _ (s & E & C)].
  - exists "". split; reflexivity.
  - destruct (chr_byte b Hb) as [Cb Rb].
    exists (String (ascii_of_N (Z.to_N b)) s). split.
    + cbn [chr_join]. rewrite Cb. cbn [bind]. rewrite E. reflexivity.
    + unfold codes in *. cbn [list_ascii_of_string map].
      rewrite Rb, C. reflexivity.
Qed.

Lemma decode_field_S : forall idata,
    decode_field "S" idata = (s <- chr_join idata ;; Ok (VStr s, [])).
Proof. reflexivity. Qed.

Lemma decode_fields_enough : forall fields idata result,
    fields_wf fields = true ->
    (fields_width fields <= List.length idata)%nat ->
    Forall is_byte idata ->
    exists d, decode_fields fields idata result = Ok d.
Proof.
  induction fields as [|field rest IH]; intros idata result W L B;
    [eexists; reflexivity|].
  cbn [fields_wf fields_width decode_fields] in *.
  destruct (Fmt.split ":" field) as [|type [|name [|? ?]]];
    try discriminate.
  destruct (type_width type) as [w|] eqn:T; [|discriminate].
  apply andb_prop in W. destruct W as [WS W].
  destruct (String.eqb_spec type "S") as [->|NS].
  - simpl in WS. destruct rest; [|discriminate].
    rewrite decode_field_S.
    destruct (chr_join_bytes idata B) as (s & E & _). rewrite E.
    eexists. reflexivity.
  - destruct (decode_field_skipn _ _ idata T NS ltac:(lia)) as (val & E).
    rewrite E. cbn [bind]. apply IH.
    + exact W.
    + rewrite length_skipn. lia.
    + apply Forall_skipn_bytes. exact B.
Qed.

(** X6: what [decode] does with a leaf of bytes.  For a tag without
    field definition it returns [None].  For a tag with one it returns
    a record when the leaf has at least the bytes the definition takes
    (bytes beyond them are not looked at, unless a field of type S takes
    them) and raises [StopIteration] when it has fewer; no other
    exception and no "Unknown data type" arises from the table. *)
Theorem decode_outcome : forall tag data,
    Forall is_byte data ->
    match fields_get tag with
    | Ok fdef =>
        if (required_bytes fdef <=? List.length data)%nat
        then exists d, decode tag data = Ok (Some d)
        else decode tag data = Raise StopIteration
    | _ => decode tag data = Ok None
    end.
Proof.
  intros tag data B.
  destruct (fields_get tag) as [fdef|e|] eqn:F.
  - destruct (Nat.leb_spec (required_bytes fdef) (List.length data)) as [L|L].
    + destruct (decode_fields_enough _ data [] (fields_get_wf _ _ F) L B)
        as (d & E).
      exists d. unfold decode. rewrite F. cbn [bind].
      unfold _decode_internal. rewrite E. reflexivity.
    + apply (decode_short _ _ _ F L).
  - unfold fields_get in F.
    destruct (find (fun kv => (fst kv =? tag)%Z) _fields) eqn:F';
      [discriminate|].
    injection F as <-. unfold decode, fields_get. rewrite F'. reflexivity.
  - unfold fields_get in F.
    destruct (find (fun kv => (fst kv =? tag)%Z) _fields); discriminate.
Qed.

Lemma decode_outcome_witness :
  Forall is_byte [0x01; 0x02; 0x03; 0x04]%Z
  /\ exists d, decode Tag.SCHLUESSELVERSIONEN [0x01; 0x02; 0x03; 0x04]%Z
               = Ok (Some d).
Proof.
  assert (B : Forall is_byte [0x01; 0x02; 0x03; 0x04]%Z)
    by (repeat constructor; unfold is_byte; lia).
  split; [exact B|].
  exact (decode_outcome Tag.SCHLUESSELVERSIONEN [0x01; 0x02; 0x03; 0x04]%Z B).
Defined.

End DecodedFields.

(** ** The types of fields *)

Section FieldTypes.
Import VdvKaDecoder.
Local Open Scope string_scope.

Lemma be_value_range_from : forall octets acc k,
    Forall is_byte octets ->
    (0 <= k)%Z ->
    (0 <= acc < 256 ^ k)%Z ->
    (0 <= fold_left (fun a b => a * 256 + b) octets acc
     < 256 ^ (k + Z.of_nat (List.length octets)))%Z.
Proof.
  induction octets as [|b octets IH]; intros acc k B Hk Ha.
  - cbn [fold_left List.length]. rewrite Z.add_0_r. exact Ha.
  - inversion B as [|? ? Hb B']; subst. unfold is_byte in Hb.
    cbn [fold_left].
    replace (k + Z.of_nat (List.length (b :: octets)))%Z
      with ((k + 1) + Z.of_nat (List.length octets))%Z
      by (cbn [List.length]; lia).
    apply IH; [exact B'|lia|].
    rewrite Z.pow_add_r by lia. change (256 ^ 1)%Z with 256%Z. nia.
Qed.

Lemma be_value_range : forall octets,
    Forall is_byte octets ->
    (0 <= be_value octets < 256 ^ Z.of_nat (List.length octets))%Z.
Proof.
  intros octets B.
  apply (be_value_range_from octets 0 0 B); [lia|].
  change (256 ^ 0)%Z with 1%Z. lia.
Qed.

(** X7: the fields of type 1, 2, 3 and 4 are unsigned big-endian
    numbers: a field of width w takes w bytes, leaves the rest and has
    the value that the bytes denote, most significant first, which is
    below 256^w. *)
Theorem integer_fields_big_endian : forall b0 b1 b2 b3 rest,
    is_byte b0 -> is_byte b1 -> is_byte b2 -> is_byte b3 ->
    decode_field "1" (b0 :: rest) = Ok (VInt (be_value [b0]), rest)
    /\ decode_field "2" (b0 :: b1 :: rest)
       = Ok (VInt (be_value [b0; b1]), rest)
    /\ decode_field "3" (b0 :: b1 :: b2 :: rest)
       = Ok (VInt (be_value [b0; b1; b2]), rest)
    /\ decode_field "4" (b0 :: b1 :: b2 :: b3 :: rest)
       = Ok (VInt (be_value [b0; b1; b2; b3]), rest)
    /\ (0 <= be_value [b0] < 256)%Z
    /\ (0 <= be_value [b0; b1] < 65536)%Z
    /\ (0 <= be_value [b0; b1; b2] < 16777216)%Z
    /\ (0 <= be_value [b0; b1; b2; b3] < 4294967296)%Z.
Proof.
  intros b0 b1 b2 b3 rest H0 H1 H2 H3.
  assert (E1 : decode_field "1" (b0 :: rest) = Ok (VInt b0, rest))
    by reflexivity.
  assert (E2 : decode_field "2" (b0 :: b1 :: rest)
               = Ok (VInt (Z.shiftl b0 8 + b1), rest)) by reflexivity.
  assert (E3 : decode_field "3" (b0 :: b1 :: b2 :: rest)
               = Ok (VInt (Z.shiftl b0 16 + Z.shiftl b1 8 + b2), rest))
    by reflexivity.
  assert (E4 : decode_field "4" (b0 :: b1 :: b2 :: b3 :: rest)
               = Ok (VInt (Z.shiftl b0 24 + Z.shiftl b1 16 + Z.shiftl b2 8
                           + b3), rest)) by reflexivity.
  rewrite E1, E2, E3, E4. rewrite !Z.shiftl_mul_pow2 by lia.
  unfold be_value. cbn [fold_left].
  change (2 ^ 8)%Z with 256%Z. change (2 ^ 16)%Z with 65536%Z.
  change (2 ^ 24)%Z with 16777216%Z.
  unfold is_byte in *.
  repeat split; try lia; do 3 f_equal; lia.
Qed.

Lemma integer_fields_big_endian_witness :
  is_byte 0x12 /\ is_byte 0x34 /\ is_byte 0x56 /\ is_byte 0x78
  /\ decode_field "2" [0x12; 0x34; 0xFF]%Z = Ok (VInt 0x1234, [0xFF]%Z).
Proof.
  assert (B0 : is_byte 0x12) by (unfold is_byte; lia).
  assert (B1 : is_byte 0x34) by (unfold is_byte; lia).
  assert (B2 : is_byte 0x56) by (unfold is_byte; lia).
  assert (B3 : is_byte 0x78) by (unfold is_byte; lia).
  repeat (split; [assumption|]).
  exact (proj1 (proj2 (integer_fields_big_endian 0x12 0x34 0x56 0x78
                         [0xFF]%Z B0 B1 B2 B3))).
Defined.

Lemma x0_2_length : forall b,
    is_byte b -> String.length (Fmt.x0 2 b) = 2%nat.
Proof.
  intros b H. unfold is_byte in H.
  assert (A : forallb (fun k => Nat.eqb (String.length
                                   (Fmt.x0 2 (Z.of_nat k))) 2)
                (seq 0 256) = true) by (vm_compute; reflexivity).
  rewrite forallb_forall in A. specialize (A (Z.to_nat b)).
  rewrite Z2Nat.id in A by lia. apply Nat.eqb_eq, A, in_seq. lia.
Qed.

Lemma next_hex_bytes : forall bytes rest,
    Forall is_byte bytes ->
    exists s,
      next_hex (List.length bytes) (bytes ++ rest)%list = Ok (s, rest)
      /\ String.length s = (2 * List.length bytes)%nat.
Proof.
  induction bytes as [|b bytes IH]; intros rest B.
  - exists "". split; reflexivity.
  - inversion B as [|? ? Hb B']; subst.
    destruct (IH rest B') as (s & E & L).
    exists (Fmt.x0 2 b ++ s). split.
    + cbn [List.length app next_hex next bind]. rewrite E. reflexivity.
    + rewrite string_length_app, x0_2_length by exact Hb.
      rewrite L. cbn [List.length]. lia.
Qed.

(** X8: the fields rendered in hex.  On bytes, a field of type 8 takes
    eight bytes and is a text of 16 characters, a field of type B takes
    two bytes and is a text of 4 characters, and a field of type H takes
    four bytes and is a text of 10 characters with a dash after the
    fourth and after the sixth hex digit. *)
Theorem hex_fields_width : forall bytes rest,
    Forall is_byte bytes ->
    (List.length bytes = 8%nat ->
     exists s, decode_field "8" (bytes ++ rest)%list = Ok (VStr s, rest)
               /\ String.length s = 16%nat)
    /\ (List.length bytes = 2%nat ->
        exists s, decode_field "B" (bytes ++ rest)%list = Ok (VStr s, rest)
                  /\ String.length s = 4%nat)
    /\ (List.length bytes = 4%nat ->
        exists s, decode_field "H" (bytes ++ rest)%list = Ok (VStr s, rest)
                  /\ String.length s = 10%nat
                  /\ String.get 4 s = Some "-"%char
                  /\ String.get 7 s = Some "-"%char).
Proof.
  intros bytes rest B.
  destruct (next_hex_bytes bytes rest B) as (s & E & L).
  split; [|split]; intros Hl.
  - exists s. rewrite Hl in E, L. split; [|exact L].
    change (decode_field "8" (bytes ++ rest)%list)
      with ('(s, i) <- next_hex 8 (bytes ++ rest)%list ;; Ok (VStr s, i)).
    rewrite E. reflexivity.
  - exists s. rewrite Hl in E, L. split; [|exact L].
    change (decode_field "B" (bytes ++ rest)%list)
      with ('(s, i) <- next_hex 2 (bytes ++ rest)%list ;; Ok (VStr s, i)).
    rewrite E. reflexivity.
  - destruct bytes as [|b0 [|b1 [|b2 [|b3 [|? ?]]]]]; try discriminate.
    inversion B as [|? ? H0 B0]; subst. inversion B0 as [|? ? H1 B1]; subst.
    inversion B1 as [|? ? H2 B2]; subst. inversion B2 as [|? ? H3 _]; subst.
    eexists. split; [reflexivity|].
    pose proof (x0_2_length _ H0) as L0. pose proof (x0_2_length _ H1) as L1.
    pose proof (x0_2_length _ H2) as L2. pose proof (x0_2_length _ H3) as L3.
    destruct (Fmt.x0 2 b0) as [|c00 [|c01 [|? ?]]]; try discriminate.
    destruct (Fmt.x0 2 b1) as [|c10 [|c11 [|? ?]]]; try discriminate.
    destruct (Fmt.x0 2 b2) as [|c20 [|c21 [|? ?]]]; try discriminate.
    destruct (Fmt.x0 2 b3) as [|c30 [|c31 [|? ?]]]; try discriminate.
    repeat split.
Qed.

Lemma hex_fields_width_witness :
  Forall is_byte [0x19; 0x84; 0x07; 0x31]%Z
  /\ exists s, decode_field "H" ([0x19; 0x84; 0x07; 0x31]%Z ++ [0x41]%Z)%list
               = Ok (VStr s, [0x41]%Z)
               /\ String.length s = 10%nat
               /\ String.get 4 s = Some "-"%char
               /\ String.get 7 s = Some "-"%char.
Proof.
  assert (B : Forall is_byte [0x19; 0x84; 0x07; 0x31]%Z)
    by (repeat constructor; unfold is_byte; lia).
  split; [exact B|].
  exact (proj2 (proj2 (hex_fields_width [0x19; 0x84; 0x07; 0x31]%Z
                         [0x41]%Z B)) eq_refl).
Defined.

(** X9: a field of type S takes all the bytes that are left and is the
    text with one character per byte: the codes of its characters are
    these bytes, in order. *)
Theorem string_field_codes : forall bytes,
    Forall is_byte bytes ->
    exists s,
      decode_field "S" bytes = Ok (VStr s, [])
      /\ codes s = bytes.
Proof.
  intros bytes B. destruct (chr_join_bytes bytes B) as (s & E & C).
  exists s. split; [|exact C].
  rewrite decode_field_S, E. reflexivity.
Qed.

Lemma string_field_codes_witness :
  Forall is_byte [0x41; 0x42; 0xE4]%Z
  /\ exists s,
      decode_field "S" [0x41; 0x42; 0xE4]%Z = Ok (VStr s, [])
      /\ codes s = [0x41; 0x42; 0xE4]%Z.
Proof.
  assert (B : Forall is_byte [0x41; 0x42; 0xE4]%Z)
    by (repeat constructor; unfold is_byte; lia).
  split; [exact B|].
  exact (string_field_codes [0x41; 0x42; 0xE4]%Z B).
Defined.

End FieldTypes.

(** ** The decoded record and the tables *)

Section Tables.
Import BerTlv VdvKaDecoder Render.
Local Open Scope string_scope.

Lemma odict_set_keys : forall result name val,
    map fst (odict_set result name val)
    = (if existsb (String.eqb name) (map fst result) then map fst result
       else map fst result ++ [name])%list.
Proof.
  induction result as [|[k v] result IH]; intros name val; [reflexivity|].
  cbn [odict_set map fst existsb].
  rewrite (String.eqb_sym name k).
  destruct (k =? name); [reflexivity|].
  cbn [map fst orb]. rewrite IH.
  destruct (existsb (String.eqb name) (map fst result)); reflexivity.
Qed.

Lemma decode_fields_keys : forall fields idata result d,
    decode_fields fields idata result = Ok d ->
    map fst d = fold_left add_key (field_names fields) (map fst result).
Proof.
  induction fields as [|field rest IH]; intros idata result d H.
  - injection H as <-. reflexivity.
  - cbn [decode_fields field_names map fold_left] in *.
    destruct (Fmt.split ":" field) as [|type [|name [|? ?]]];
      try discriminate.
    destruct (decode_field type idata) as [[val idata']| |]; try discriminate.
    cbn [bind] in H. apply IH in H. rewrite H. f_equal.
    unfold add_key. destruct (name =? ""); [reflexivity|].
    apply odict_set_keys.
Qed.

Lemma _fields_names :
  forallb (fun kv =>
             names_eqb
               (fold_left add_key (field_names (Fmt.split "|" (snd kv))) [])
               (named_fields (snd kv))) _fields = true.
Proof. vm_compute. reflexivity. Qed.

(** X10: the record that [decode] returns has the names of the field
    definition of the tag as keys, in the order of the definition,
    without the fields whose name is empty: no name of the table occurs
    twice in a definition, so no field overwrites another. *)
Theorem decode_keys : forall tag fdef data d,
    fields_get tag = Ok fdef ->
    decode tag data = Ok (Some d) ->
    map fst d = named_fields fdef.
Proof.
  intros tag fdef data d F D. unfold decode in D. rewrite F in D.
  cbn [bind] in D. unfold _decode_internal in D.
  destruct (decode_fields (Fmt.split "|" fdef) data []) as [r|e|] eqn:E.
  - injection D as <-. apply decode_fields_keys in E. rewrite E.
    unfold fields_get in F.
    destruct (find (fun kv => (fst kv =? tag)%Z) _fields) as [kv|] eqn:Fd;
      [|discriminate].
    injection F as <-. apply find_some in Fd. destruct Fd as [Fd _].
    pose proof _fields_names as N. rewrite forallb_forall in N.
    specialize (N kv Fd). unfold names_eqb in N. cbn [map] in N |- *.
    destruct (list_eq_dec string_dec
                (fold_left add_key (field_names (Fmt.split "|" (snd kv))) [])
                (named_fields (snd kv))) as [Eq|]; [exact Eq|discriminate].
  - destruct e; discriminate.
  - discriminate.
Qed.

Lemma decode_keys_witness :
  fields_get Tag.SCHLUESSELREGISTER_STATISCH
  = Ok "2:|2:hersteller.organisationsNummer|B:NM-Spezifikations-version|4:Herstellerspezifische Versionsnummer"
  /\ decode Tag.SCHLUESSELREGISTER_STATISCH
       [0x00; 0x00; 0x12; 0x34; 0x01; 0x05; 0x00; 0x00; 0x00; 0x07]%Z
     = Ok (Some [("hersteller.organisationsNummer", VInt 0x1234);
                 ("NM-Spezifikations-version", VStr "0105");
                 ("Herstellerspezifische Versionsnummer", VInt 7)])
  /\ map fst [("hersteller.organisationsNummer", VInt 0x1234);
              ("NM-Spezifikations-version", VStr "0105");
              ("Herstellerspezifische Versionsnummer", VInt 7)]
     = ["hersteller.organisationsNummer"; "NM-Spezifikations-version";
        "Herstellerspezifische Versionsnummer"].
Proof.
  split; [reflexivity|]. split; [reflexivity|].
  exact (decode_keys Tag.SCHLUESSELREGISTER_STATISCH _
           [0x00; 0x00; 0x12; 0x34; 0x01; 0x05; 0x00; 0x00; 0x00; 0x07]%Z
           _ eq_refl eq_refl).
Defined.

Lemma members_names :
  forallb (fun m => match Tag.name (snd m) with
                    | Ok nm => nm =? fst m
                    | _ => false
                    end) Tag.members = true.
Proof. vm_compute. reflexivity. Qed.

(** X11: the tag registry is unambiguous and the name of a tag is
    always found or replaced.  A value that the registry lists under a
    name is rendered with that very name (no two members share a value);
    a value that it does not list is rendered with the placeholder;
    [_get_tag_name] never raises. *)
Theorem _get_tag_name_total : forall tag,
    (forall nm, In (nm, tag) Tag.members ->
                _get_tag_name tag = Ok (Fmt.x0 2 tag ++ " (" ++ nm ++ ")"))
    /\ ((forall nm, ~ In (nm, tag) Tag.members) ->
        _get_tag_name tag = Ok (Fmt.x0 2 tag ++ " (???)")).
Proof.
  intros tag. split.
  - intros nm I. pose proof members_names as N.
    rewrite forallb_forall in N. specialize (N _ I). cbn [fst snd] in N.
    unfold _get_tag_name.
    destruct (Tag.name tag) as [nm'| |]; try discriminate.
    apply String.eqb_eq in N. subst nm'. reflexivity.
  - intros A. unfold _get_tag_name, Tag.name.
    destruct (find (fun m => (snd m =? tag)%Z) Tag.members) as [[nm v]|]
      eqn:F; [|reflexivity].
    apply find_some in F. destruct F as [F E]. cbn [snd] in E.
    apply Z.eqb_eq in E. subst v. exfalso. exact (A nm F).
Qed.

Lemma _get_tag_name_total_witness :
  In ("ZEIGER", Tag.ZEIGER) Tag.members
  /\ _get_tag_name Tag.ZEIGER = Ok "c0 (ZEIGER)".
Proof.
  assert (I : In ("ZEIGER", Tag.ZEIGER) Tag.members).
  { unfold Tag.members. do 38 right. left. reflexivity. }
  split; [exact I|].
  exact (proj1 (_get_tag_name_total Tag.ZEIGER) "ZEIGER" I).
Defined.

Lemma _fields_tags :
  forallb (fun kv => negb (is_constructed (fst kv) false)
                     && negb (is_constructed (fst kv) true)
                     && match Tag.name (fst kv) with
                        | Ok _ => true
                        | _ => false
                        end) _fields = true.
Proof. vm_compute. reflexivity. Qed.

(** X12: the field definitions are reachable and named.  Every tag that
    has a field definition is parsed as a leaf in both modes, so that
    its value reaches the decoder as raw bytes, and is a member of the
    tag registry. *)
Theorem fields_tags_are_leaves : forall tag fdef hack,
    fields_get tag = Ok fdef ->
    is_constructed tag hack = false
    /\ exists nm, Tag.name tag = Ok nm.
Proof.
  intros tag fdef hack F. unfold fields_get in F.
  destruct (find (fun kv => (fst kv =? tag)%Z) _fields) as [kv|] eqn:Fd;
    [|discriminate].
  apply find_some in Fd. destruct Fd as [I E].
  apply Z.eqb_eq in E. subst tag.
  pose proof _fields_tags as T. rewrite forallb_forall in T.
  specialize (T kv I).
  apply andb_prop in T. destruct T as [T Tn].
  apply andb_prop in T. destruct T as [T0 T1].
  apply negb_true_iff in T0. apply negb_true_iff in T1. split.
  - destruct hack; assumption.
  - destruct (Tag.name (fst kv)) as [nm| |]; try discriminate.
    exists nm. reflexivity.
Qed.

Lemma fields_tags_are_leaves_witness :
  fields_get Tag.TLV_EFS_FAHRGAST
  = Ok "1:efsFahrgastGeschlecht|H:efsFahrgastGeburtsdatum|S:efsFahrgastName"
  /\ is_constructed Tag.TLV_EFS_FAHRGAST true = false.
Proof.
  split; [reflexivity|].
  exact (proj1 (fields_tags_are_leaves Tag.TLV_EFS_FAHRGAST _ true eq_refl)).
Defined.

End Tables.

(** ** What a chained read returns *)

Section ChainedReadResult.

Lemma chunks_ext : forall c1 c2 n p,
    replies c1 = replies c2 -> chunks c1 p n = chunks c2 p n.
Proof.
  induction n as [|n IH]; intros p R; [reflexivity|].
  cbn [chunks]. rewrite R, (IH (S p) R). reflexivity.
Qed.

Lemma chained_loop_result : forall k c record full_data fuel,
    (forall j, (j < k)%nat ->
               goes_on (replies c (List.length (sent c) + j)) = true) ->
    goes_on (replies c (List.length (sent c) + k)) = false ->
    (k < fuel)%nat ->
    exists c',
      chained_loop fuel c record full_data
      = Ok ((full_data ++ chunks c (List.length (sent c)) (S k),
             fst (status (replies c (List.length (sent c) + k
                                     + (if reply_ok
                                             (replies c
                                                (List.length (sent c) + k))
                                        then 1 else 0)))),
             snd (status (replies c (List.length (sent c) + k
                                     + (if reply_ok
                                             (replies c
                                                (List.length (sent c) + k))
                                        then 1 else 0))))), c').
Proof.
  induction k as [|k IH]; intros c record full_data fuel Hgo Hstop Hf;
    (destruct fuel as [|fuel]; [lia|]);
    rewrite chained_loop_step; cbv zeta.
  - rewrite Nat.add_0_r in *. rewrite Hstop.
    cbn [chunks]. rewrite app_nil_r.
    destruct (reply_ok (replies c (List.length (sent c)))).
    + rewrite Nat.add_1_r. eexists. reflexivity.
    + rewrite Nat.add_0_r. eexists. reflexivity.
  - pose (c1 := {| replies := replies c;
                   sent := sent c ++ [next_command record] |}).
    assert (L1 : List.length (sent c1) = S (List.length (sent c))).
    { cbn [c1 sent]. rewrite length_app. cbn [List.length]. lia. }
    assert (G0 : goes_on (replies c (List.length (sent c))) = true).
    { rewrite <- (Nat.add_0_r (List.length (sent c))). apply Hgo. lia. }
    rewrite G0.
    destruct (IH c1 record
                (full_data ++ fst (fst (replies c (List.length (sent c)))))
                fuel) as (c' & E).
    + intros j Hj. rewrite L1. cbn [c1 replies].
      replace (S (List.length (sent c)) + j)%nat
        with (List.length (sent c) + S j)%nat by lia.
      apply Hgo. lia.
    + rewrite L1. cbn [c1 replies].
      replace (S (List.length (sent c)) + k)%nat
        with (List.length (sent c) + S k)%nat by lia.
      exact Hstop.
    + lia.
    + exists c'. fold c1. rewrite E, L1.
      rewrite (chunks_ext c1 c) by reflexivity. cbn [c1 replies].
      replace (S (List.length (sent c)) + k)%nat
        with (List.length (sent c) + S k)%nat by lia.
      cbn [chunks]. rewrite <- !app_assoc. reflexivity.
Qed.

(** X13: what a chained read hands back.  When the loop stops at the
    [k]-th reply, the data returned are the response bytes of the
    replies 0 to [k] put together, in order, the last chunk included
    whatever its status.  The status returned is that of the [k]-th
    reply when it is not the success status; otherwise it is the status
    of the reply to the closing "last" command, the one after, whose
    response bytes are dropped. *)
Theorem read_chained_data_result : forall k c record fuel,
    (forall j, (j < k)%nat ->
               goes_on (replies c (List.length (sent c) + j)) = true) ->
    goes_on (replies c (List.length (sent c) + k)) = false ->
    (k < fuel)%nat ->
    exists sw1 sw2 c',
      read_chained_data fuel c record
      = Ok ((chunks c (List.length (sent c)) (S k), sw1, sw2), c')
      /\ (sw1, sw2)
         = status (replies c (List.length (sent c) + k
                              + (if reply_ok
                                      (replies c (List.length (sent c) + k))
                                 then 1 else 0))).
Proof.
  intros k c record fuel Hgo Hstop Hf.
  destruct (chained_loop_result k c record [] fuel Hgo Hstop Hf) as (c' & E).
  eexists _, _, c'. split; [exact E|].
  destruct (status _); reflexivity.
Qed.

Lemma read_chained_data_result_witness :
  exists sw1 sw2 c',
    read_chained_data 4 three_full_then_short [Tag.BERECHTIGUNG; 0x01]
    = Ok ((chunks three_full_then_short 0 4, sw1, sw2), c')
    /\ (sw1, sw2) = status (replies three_full_then_short 4).
Proof.
  exact (read_chained_data_result 3 three_full_then_short
           [Tag.BERECHTIGUNG; 0x01] 4 three_full_then_short_goes_on
           eq_refl (Nat.lt_succ_diag_r 3)).
Defined.

End ChainedReadResult.

(** ** Rendering parsed trees *)

Section Rendering.
Import BerTlv BerTlvFacts VdvKaDecoder Render.
Local Open Scope string_scope.

Lemma seq_print_ok : forall o1 o2 r,
    seq_print (o1, Ok tt) (o2, r) = ((o1 ++ o2)%list, r).
Proof. reflexivity. Qed.

Lemma count_nodes_raw : forall bytes,
    list_sum (map count_nodes (raw bytes)) = 0%nat.
Proof. induction bytes as [|b bytes IH]; [reflexivity|exact IH]. Qed.

(** The decoder on a leaf that has the bytes its definition takes. *)
Lemma decode_fits : forall tag bytes,
    Forall is_byte bytes ->
    match fields_get tag with
    | Ok fdef => (required_bytes fdef <=? List.length bytes)%nat
    | _ => true
    end = true ->
    exists o, decode tag bytes = Ok o.
Proof.
  intros tag bytes B H. unfold decode.
  destruct (fields_get tag) as [fdef|e|] eqn:F.
  - apply Nat.leb_le in H.
    destruct (decode_fields_enough _ bytes [] (fields_get_wf _ _ F) H B)
      as (d & E).
    cbn [bind]. unfold _decode_internal. rewrite E. eexists. reflexivity.
  - unfold fields_get in F.
    destruct (find (fun kv => (fst kv =? tag)%Z) _fields); [discriminate|].
    injection F as <-. eexists. reflexivity.
  - unfold fields_get in F.
    destruct (find (fun kv => (fst kv =? tag)%Z) _fields); discriminate.
Qed.

Lemma print_leaf_ok : forall details indent nm tag bytes,
    Forall is_byte bytes ->
    (details = true ->
     match fields_get tag with
     | Ok fdef => (required_bytes fdef <=? List.length bytes)%nat
     | _ => true
     end = true) ->
    exists more,
      print_leaf details indent nm tag (raw bytes)
      = ((hex_line indent nm bytes :: more)%list, Ok tt)
      /\ (details = false -> more = []).
Proof.
  intros details indent nm tag bytes B H. unfold print_leaf.
  rewrite ints_raw. cbn [eval_then]. fold (hex_line indent nm bytes).
  destruct details.
  - destruct (decode_fits tag bytes B (H eq_refl)) as ([d|] & E);
      rewrite E; cbn [eval_then print seq_print fst snd app].
    + eexists. split; [reflexivity|discriminate].
    + exists []. split; [reflexivity|reflexivity].
  - exists []. split; reflexivity.
Qed.

Lemma render_tree_of : forall n data hack names details indent,
    (List.length data <= n)%nat ->
    Forall is_byte data ->
    (details = true -> forallb leaves_fit (tree_of data hack) = true) ->
    exists lines,
      _pretty_print_internal (tree_of data hack) names details indent
      = (lines, Ok tt)
      /\ (details = false ->
          List.length lines
          = list_sum (map count_nodes (tree_of data hack))).
Proof.
  induction n as [|n IH]; intros data hack names details indent Hn B F;
    rewrite tree_of_eq in *.
  - destruct data; [|simpl in Hn; lia].
    exists []. split; reflexivity.
  - destruct (read_tlv data) as [[[[tag len] value] rest]| |] eqn:E;
      try (exists []; split; reflexivity).
    pose proof (read_tlv_shorter _ _ _ _ _ E) as Hl.
    destruct (read_tlv_bytes _ _ _ _ _ B E) as (Bv & Br & _).
    assert (Fr : details = true ->
                 forallb leaves_fit (tree_of rest hack) = true).
    { intros D. specialize (F D). cbn [forallb] in F.
      apply andb_prop in F. apply F. }
    destruct (IH rest hack names details indent ltac:(lia) Br Fr)
      as (lr & Er & Cr).
    unfold _pretty_print_internal in *. cbn [for_each]. rewrite Er.
    assert (N : exists nm,
               (if names then _get_tag_name tag else Ok (Fmt.x0 2 tag))
               = Ok nm).
    { destruct names; [apply _get_tag_name_ok|eauto]. }
    destruct N as [nm N].
    cbn [print_tlv map list_sum count_nodes]. rewrite N. cbn [eval_then].
    set (payload := if is_constructed tag hack then tree_of value hack
                    else raw value) in *.
    assert (Fn : details = true -> leaves_fit (ENode tag len payload) = true).
    { intros D. specialize (F D). cbn [forallb] in F.
      apply andb_prop in F. apply F. }
    cbn [leaves_fit] in Fn.
    destruct (_is_nested_tlv payload) eqn:Nest.
    + assert (P : payload = tree_of value hack).
      { unfold payload in *. destruct (is_constructed tag hack);
          [reflexivity|].
        rewrite raw_not_nested in Nest. discriminate. }
      rewrite P in *.
      destruct (IH value hack names details (S indent) ltac:(lia) Bv Fn)
        as (lv & Ev & Cv).
      rewrite Ev. unfold print. rewrite !seq_print_ok.
      eexists. split; [reflexivity|].
      intros D. cbn [List.length app]. rewrite length_app.
      rewrite (Cv D), (Cr D). reflexivity.
    + assert (P : exists bytes, payload = raw bytes /\ Forall is_byte bytes).
      { unfold payload in *. destruct (is_constructed tag hack).
        - exists []. split; [|constructor].
          apply not_nested_nodes_empty; [|exact Nest].
          apply (tree_of_nodes (List.length value)). lia.
        - exists value. split; [reflexivity|exact Bv]. }
      destruct P as (bytes & P & Bb). rewrite P in *.
      rewrite raw_length in Fn.
      destruct (print_leaf_ok details indent nm tag bytes Bb Fn)
        as (more & Ep & Cp).
      rewrite Ep, seq_print_ok.
      eexists. split; [reflexivity|].
      intros D. rewrite (Cp D), count_nodes_raw. cbn [List.length app].
      rewrite (Cr D). reflexivity.
Qed.

(** X14: rendering without the decoded fields cannot fail.  For a tree
    parsed from bytes, with or without tag names and at any indent, the
    walk returns normally and prints one line for each node of the
    tree, nested nodes included. *)
Theorem render_without_details : forall data hack tree names indent,
    Forall is_byte data ->
    _parse_internal data hack = Ok tree ->
    exists lines,
      _pretty_print_internal tree names false indent = (lines, Ok tt)
      /\ List.length lines = list_sum (map count_nodes tree).
Proof.
  intros data hack tree names indent B P. rewrite _parse_internal_ok in P.
  injection P as <-.
  destruct (render_tree_of (List.length data) data hack names false indent
              (Nat.le_refl _) B) as (lines & E & C); [discriminate|].
  exists lines. split; [exact E|apply C; reflexivity].
Qed.

Lemma render_without_details_witness :
  Forall is_byte [0xE1; 0x05; 0x80; 0x01; 0x05; 0xC0; 0x00; 0x42; 0x00]%Z
  /\ exists lines,
      _pretty_print_internal
        [ENode 0xE1 5 [ENode 0x80 1 [EInt 0x05]; ENode 0xC0 0 []];
         ENode 0x42 0 []] true false 0
      = (lines, Ok tt)
      /\ List.length lines = 4%nat.
Proof.
  assert (B : Forall is_byte
                [0xE1; 0x05; 0x80; 0x01; 0x05; 0xC0; 0x00; 0x42; 0x00]%Z)
    by (repeat constructor; unfold is_byte; lia).
  split; [exact B|].
  exact (render_without_details _ false
           [ENode 0xE1 5 [ENode 0x80 1 [EInt 0x05]; ENode 0xC0 0 []];
            ENode 0x42 0 []] true 0 B eq_refl).
Defined.

(** X15: rendering with the decoded fields fails for short leaves
    only.  For a tree parsed from bytes in which every leaf that has a
    field definition has at least the bytes the definition takes, the
    walk with details returns normally. *)
Theorem render_with_details : forall data hack tree names indent,
    Forall is_byte data ->
    _parse_internal data hack = Ok tree ->
    forallb leaves_fit tree = true ->
    exists lines,
      _pretty_print_internal tree names true indent = (lines, Ok tt).
Proof.
  intros data hack tree names indent B P F. rewrite _parse_internal_ok in P.
  injection P as <-.
  destruct (render_tree_of (List.length data) data hack names true indent
              (Nat.le_refl _) B (fun _ => F)) as (lines & E & _).
  exists lines. exact E.
Qed.

Lemma render_with_details_witness :
  Forall is_byte [0xE1; 0x06; 0x80; 0x02; 0x01; 0x07; 0xC0; 0x00]%Z
  /\ forallb leaves_fit
       [ENode 0xE1 6 [ENode 0x80 2 [EInt 0x01; EInt 0x07]; ENode 0xC0 0 []]]
     = true
  /\ exists lines,
      _pretty_print_internal
        [ENode 0xE1 6 [ENode 0x80 2 [EInt 0x01; EInt 0x07]; ENode 0xC0 0 []]]
        true true 0
      = (lines, Ok tt).
Proof.
  assert (B : Forall is_byte
                [0xE1; 0x06; 0x80; 0x02; 0x01; 0x07; 0xC0; 0x00]%Z)
    by (repeat constructor; unfold is_byte; lia).
  split; [exact B|]. split; [reflexivity|].
  exact (render_with_details _ false
           [ENode 0xE1 6 [ENode 0x80 2 [EInt 0x01; EInt 0x07];
                          ENode 0xC0 0 []]] true 0 B eq_refl eq_refl).
Defined.

End Rendering.

(** ** The heuristic and the block printer *)

Section BlockPrinter.
Import BerTlv BerTlvFacts Render.
Local Open Scope string_scope.

Lemma nibble_D : forall b,
    is_byte b ->
    (Z.land b 0xF0 =? 0xD0)%Z = ((0xD0 <=? b) && (b <=? 0xDF))%Z.
Proof.
  intros b H. unfold is_byte in H.
  assert (A : forallb (fun k =>
                Bool.eqb (Z.land (Z.of_nat k) 0xF0 =? 0xD0)%Z
                  ((0xD0 <=? Z.of_nat k) && (Z.of_nat k <=? 0xDF))%Z)
                (seq 0 256) = true) by (vm_compute; reflexivity).
  rewrite forallb_forall in A. specialize (A (Z.to_nat b)).
  rewrite Z2Nat.id in A by lia. apply Bool.eqb_prop, A, in_seq. lia.
Qed.

(** X16: when the path of the heuristic is there, the block is taken
    for a TLV-EFS exactly when the first byte of the leaf
    BERECHTIGUNG_PRODUKTSPEZIFISCH is one of 0xD0 to 0xDF; the other
    bytes of the leaf play no part. *)
Theorem is_tlv_efs_first_byte : forall t t1 t2 b bs,
    get_child t Tag.BERECHTIGUNG = Ok (Some t1) ->
    get_child t1 Tag.BERECHTIGUNG_SEPARATE_DATEN = Ok (Some t2) ->
    get_value t2 Tag.BERECHTIGUNG_PRODUKTSPEZIFISCH = Ok (Some (b :: bs)) ->
    is_byte b ->
    is_tlv_efs t = Ok ((0xD0 <=? b) && (b <=? 0xDF))%Z.
Proof.
  intros t t1 t2 b bs H1 H2 H3 Hb. unfold is_tlv_efs, tlv_efs_test.
  rewrite H1. cbn [bind]. rewrite H2. cbn [bind]. rewrite H3. cbn [bind].
  rewrite (nibble_D b Hb). reflexivity.
Qed.

Lemma is_tlv_efs_first_byte_witness :
  is_byte 0xDA
  /\ is_tlv_efs [ENode 0xE8 7 [ENode 0xEA 5
                   [ENode 0x85 3 [EInt 0xDA; EInt 0x01; EInt 0x02]]]]
     = Ok true.
Proof.
  assert (B : is_byte 0xDA) by (unfold is_byte; lia).
  split; [exact B|].
  exact (is_tlv_efs_first_byte
           [ENode 0xE8 7 [ENode 0xEA 5
              [ENode 0x85 3 [EInt 0xDA; EInt 0x01; EInt 0x02]]]]
           [ENode 0xEA 5 [ENode 0x85 3 [EInt 0xDA; EInt 0x01; EInt 0x02]]]
           [ENode 0x85 3 [EInt 0xDA; EInt 0x01; EInt 0x02]]
           0xDA [0x01; 0x02]%Z eq_refl eq_refl eq_refl B).
Defined.

(** X17: what [pretty_print_block] prints.  With a status other than
    9000 it prints the line "Fehler" with the two status bytes in hex
    and an empty line, and the response is not parsed.  With the
    status 9000, when the heuristic on the default parse answers [efs],
    it prints the rendering, with names and details, of the parse of
    the response in mode [efs], and then an empty line when the
    rendering returned. *)
Theorem pretty_print_block_output : forall response sw1 sw2,
    (success sw1 sw2 = false ->
     pretty_print_block response sw1 sw2
     = (["Fehler " ++ Fmt.x0 2 sw1 ++ Fmt.x0 2 sw2; ""], Ok tt))
    /\ (success sw1 sw2 = true ->
        forall t efs,
          _parse_internal response false = Ok t ->
          is_tlv_efs t = Ok efs ->
          exists tree,
            _parse_internal response efs = Ok tree
            /\ pretty_print_block response sw1 sw2
               = seq_print (pretty_print tree true true) (print "")).
Proof.
  intros response sw1 sw2. split; intros S'; unfold pretty_print_block;
    rewrite S'.
  - reflexivity.
  - intros t efs P H. rewrite _parse_internal_ok in P. injection P as <-.
    exists (tree_of response efs). split; [apply _parse_internal_ok|].
    assert (I : init response = Ok (tree_of response false)).
    { destruct response; [reflexivity|apply _parse_internal_ok]. }
    rewrite I. cbn [eval_then]. rewrite H. cbn [eval_then].
    destruct efs.
    + rewrite _parse_internal_ok. reflexivity.
    + reflexivity.
Qed.

Lemma pretty_print_block_output_witness :
  (success 0x6A 0x82 = false
   /\ pretty_print_block [0xC0; 0x01; 0x07]%Z 0x6A 0x82
      = (["Fehler 6a82"; ""], Ok tt))
  /\ (success 0x90 0x00 = true
      /\ _parse_internal [0xC0; 0x01; 0x07]%Z false
         = Ok [ENode 0xC0 1 [EInt 0x07]]
      /\ is_tlv_efs [ENode 0xC0 1 [EInt 0x07]] = Ok false
      /\ exists tree,
          _parse_internal [0xC0; 0x01; 0x07]%Z false = Ok tree
          /\ pretty_print_block [0xC0; 0x01; 0x07]%Z 0x90 0x00
             = seq_print (pretty_print tree true true) (print "")).
Proof.
  split.
  - split; [reflexivity|].
    exact (proj1 (pretty_print_block_output [0xC0; 0x01; 0x07]%Z 0x6A 0x82)
             eq_refl).
  - split; [reflexivity|]. split; [reflexivity|]. split; [reflexivity|].
    exact (proj2 (pretty_print_block_output [0xC0; 0x01; 0x07]%Z 0x90 0x00)
             eq_refl [ENode 0xC0 1 [EInt 0x07]] false eq_refl eq_refl).
Defined.

End BlockPrinter.

(** ** Packing a date and time *)

Section PackedDateTime.
Import VdvKaDecoder.

Lemma bits_of_sum : forall hi x low lo w,
    0 <= lo -> 0 <= w ->
    0 <= x < 2 ^ w -> 0 <= low < 2 ^ lo ->
    ((hi * 2 ^ w + x) * 2 ^ lo + low) / 2 ^ lo mod 2 ^ w = x.
Proof.
  intros hi x low lo w Hlo Hw Hx Hl.
  assert (P : 0 < 2 ^ lo) by (apply Z.pow_pos_nonneg; lia).
  rewrite Z.div_add_l by lia. rewrite (Z.div_small low) by lia.
  rewrite Z.add_0_r, Z.add_comm, Z.mod_add by lia.
  apply Z.mod_small. exact Hx.
Qed.

(** X18: decoding is the inverse of packing.  For a year from 1990 to
    2117, a month below 16, a day and an hour below 32, a minute below
    64 and a count of double seconds below 32, the packed value is a
    32-bit number and [_decode_datetimecompact] gives the components
    back, the seconds as twice the count. *)
Theorem decode_pack_datetime : forall year month day hour min sec2,
    1990 <= year < 2118 -> 0 <= month < 16 -> 0 <= day < 32 ->
    0 <= hour < 32 -> 0 <= min < 64 -> 0 <= sec2 < 32 ->
    0 <= pack_datetime year month day hour min sec2 < 2 ^ 32
    /\ _decode_datetimecompact (pack_datetime year month day hour min sec2)
       = (year, month, day, hour, min, sec2 * 2).
Proof.
  intros year month day hour min sec2 Hy Hm Hd Hh Hi Hs.
  assert (R : 0 <= pack_datetime year month day hour min sec2 < 2 ^ 32).
  { unfold pack_datetime.
    change (2 ^ 25) with 33554432. change (2 ^ 21) with 2097152.
    change (2 ^ 16) with 65536. change (2 ^ 11) with 2048.
    change (2 ^ 5) with 32. change (2 ^ 32) with 4294967296. lia. }
  split; [exact R|].
  rewrite _decode_datetimecompact_bits by exact R.
  unfold bits.
  change (31 - 25 + 1) with 7. change (24 - 21 + 1) with 4.
  change (20 - 16 + 1) with 5. change (15 - 11 + 1) with 5.
  change (10 - 5 + 1) with 6. change (4 - 0 + 1) with 5.
  assert (Y : pack_datetime year month day hour min sec2
              = (0 * 2 ^ 7 + (year - 1990)) * 2 ^ 25
                + (month * 2 ^ 21 + day * 2 ^ 16 + hour * 2 ^ 11
                   + min * 2 ^ 5 + sec2))
    by (unfold pack_datetime; ring).
  assert (M : pack_datetime year month day hour min sec2
              = ((year - 1990) * 2 ^ 4 + month) * 2 ^ 21
                + (day * 2 ^ 16 + hour * 2 ^ 11 + min * 2 ^ 5 + sec2))
    by (unfold pack_datetime; ring).
  assert (D : pack_datetime year month day hour min sec2
              = (((year - 1990) * 2 ^ 4 + month) * 2 ^ 5 + day) * 2 ^ 16
                + (hour * 2 ^ 11 + min * 2 ^ 5 + sec2))
    by (unfold pack_datetime; ring).
  assert (H : pack_datetime year month day hour min sec2
              = (((year - 1990) * 2 ^ 9 + month * 2 ^ 5 + day) * 2 ^ 5
                 + hour) * 2 ^ 11 + (min * 2 ^ 5 + sec2))
    by (unfold pack_datetime; ring).
  assert (I : pack_datetime year month day hour min sec2
              = (((year - 1990) * 2 ^ 14 + month * 2 ^ 10 + day * 2 ^ 5
                  + hour) * 2 ^ 6 + min) * 2 ^ 5 + sec2)
    by (unfold pack_datetime; ring).
  assert (S' : pack_datetime year month day hour min sec2
               = (((year - 1990) * 2 ^ 20 + month * 2 ^ 16 + day * 2 ^ 11
                   + hour * 2 ^ 6 + min) * 2 ^ 5 + sec2) * 2 ^ 0 + 0)
    by (unfold pack_datetime; ring).
  rewrite Y at 1. rewrite bits_of_sum.
  2-5: change (2 ^ 7) with 128; change (2 ^ 25) with 33554432;
       change (2 ^ 21) with 2097152; change (2 ^ 16) with 65536;
       change (2 ^ 11) with 2048; change (2 ^ 5) with 32; lia.
  rewrite M at 1. rewrite bits_of_sum.
  2-5: change (2 ^ 4) with 16; change (2 ^ 21) with 2097152;
       change (2 ^ 16) with 65536; change (2 ^ 11) with 2048;
       change (2 ^ 5) with 32; lia.
  rewrite D at 1. rewrite bits_of_sum.
  2-5: change (2 ^ 16) with 65536; change (2 ^ 11) with 2048;
       change (2 ^ 5) with 32; lia.
  rewrite H at 1. rewrite bits_of_sum.
  2-5: change (2 ^ 11) with 2048; change (2 ^ 5) with 32; lia.
  rewrite I at 1. rewrite bits_of_sum.
  2-5: change (2 ^ 6) with 64; change (2 ^ 5) with 32; lia.
  rewrite S'. rewrite bits_of_sum.
  2-5: change (2 ^ 5) with 32; change (2 ^ 0) with 1; lia.
  f_equal. f_equal. f_equal. f_equal. f_equal. lia.
Qed.

Lemma decode_pack_datetime_witness :
  _decode_datetimecompact (pack_datetime 2020 4 12 12 8 15)
  = (2020, 4, 12, 12, 8, 15 * 2).
Proof.
  apply (decode_pack_datetime 2020 4 12 12 8 15); lia.
Defined.

End PackedDateTime.

(** ** Termination and size of the parse *)

Section ParseSize.
Import BerTlv BerTlvFacts.



Lemma tree_of_count_nodes : forall n data hack,
    (List.length data <= n)%nat ->
    (2 * list_sum (map count_nodes (tree_of data hack))
     <= List.length data)%nat.
Proof.
  induction n as [|n IH]; intros data hack Hn; rewrite tree_of_eq.
  - destruct data; [apply Nat.le_refl|simpl in Hn; lia].
  - destruct (read_tlv data) as [[[[tag len] value] rest]| |] eqn:E;
      try apply Nat.le_0_l.
    pose proof (read_tlv_shorter _ _ _ _ _ E) as Hl.
    pose proof (IH rest hack ltac:(lia)) as Hr.
    pose proof (IH value hack ltac:(lia)) as Hv.
    cbn [map count_nodes].
    change (list_sum (?a :: ?l)) with (a + list_sum l)%nat.
    destruct (is_constructed tag hack).
    + set (a := list_sum (map count_nodes (tree_of value hack))) in *.
      set (b := list_sum (map count_nodes (tree_of rest hack))) in *.
      clearbody a b. lia.
    + rewrite count_nodes_raw.
      set (b := list_sum (map count_nodes (tree_of rest hack))) in *.
      clearbody b. lia.
Qed.

(** X20: the tree is not larger than the bytes.  Each node of a parsed
    tree, at any depth, stands for at least two bytes of the input, its
    tag byte and its length byte, so the tree has at most half as many
    nodes as the input has bytes. *)
Theorem parsed_tree_size : forall data hack tree,
    _parse_internal data hack = Ok tree ->
    (2 * list_sum (map count_nodes tree) <= List.length data)%nat.
Proof.
  intros data hack tree P. rewrite _parse_internal_ok in P.
  injection P as <-. apply (tree_of_count_nodes (List.length data)).
  apply Nat.le_refl.
Qed.

Lemma parsed_tree_size_witness :
  _parse_internal [0xE8; 0x04; 0xEA; 0x02; 0xC0; 0x00] false
  = Ok [ENode 0xE8 4 [ENode 0xEA 2 [ENode 0xC0 0 []]]]
  /\ (2 * list_sum (map count_nodes
                      [ENode 0xE8 4 [ENode 0xEA 2 [ENode 0xC0 0 []]]])
      <= List.length [0xE8; 0x04; 0xEA; 0x02; 0xC0; 0x00])%nat.
Proof.
  split; [reflexivity|].
  exact (parsed_tree_size [0xE8; 0x04; 0xEA; 0x02; 0xC0; 0x00] false
           [ENode 0xE8 4 [ENode 0xEA 2 [ENode 0xC0 0 []]]] eq_refl).
Defined.

End ParseSize.

(** ** The n-th child with a tag *)

Section NthChild.
Import BerTlv BerTlvFacts.

Lemma nodes_sequence : forall value,
    forallb is_node value = true ->
    _is_nested_tlv value = is_sequence value.
Proof.
  intros [|[b|t l v] value] H; [reflexivity|discriminate|].
  cbn [_is_nested_tlv is_sequence]. rewrite H. reflexivity.
Qed.

Lemma raw_no_sequence : forall bytes,
    _is_nested_tlv (raw bytes) = is_sequence (raw bytes).
Proof. intros [|b bytes]; reflexivity. Qed.

(** In a parsed tree a payload starts with a node exactly when it is a
    nested sequence: payloads hold either nodes or raw bytes. *)
Lemma tree_of_sequences : forall n data hack tag len value,
    (List.length data <= n)%nat ->
    In (ENode tag len value) (tree_of data hack) ->
    _is_nested_tlv value = is_sequence value.
Proof.
  induction n as [|n IH]; intros data hack tag len value Hn I;
    rewrite tree_of_eq in I.
  - destruct data; [destruct I|simpl in Hn; lia].
  - destruct (read_tlv data) as [[[[t l] v] rest]| |] eqn:E;
      [|destruct I|destruct I].
    pose proof (read_tlv_shorter _ _ _ _ _ E) as Hl.
    destruct I as [I|I].
    + injection I as -> -> <-.
      destruct (is_constructed tag hack).
      * apply nodes_sequence. apply (tree_of_nodes (List.length v)). lia.
      * apply raw_no_sequence.
    + apply (IH rest hack tag len value); [lia|exact I].
Qed.

(** C6, as the code has it: [get_nth_child] counts the direct children
    with the tag in encounter order, whatever their payload.  On a
    parsed tree it returns the [no]-th of them when its payload is a
    nested sequence, and [None], without raising, when that child is a
    leaf or holds nothing, or when there are fewer than [no+1] children
    with the tag; so index 5 with only two children of the tag gives
    [None]. *)
Theorem get_nth_child_by_tag : forall data hack tree t no,
    _parse_internal data hack = Ok tree ->
    get_nth_child tree t no = Ok (nth_child_by_tag tree t no)
    /\ ((List.length (filter (tag_is t) tree) <= no)%nat ->
        get_nth_child tree t no = Ok None)
    /\ (List.length (filter (tag_is t) tree) = 2%nat ->
        get_nth_child tree t 5 = Ok None).
Proof.
  intros data hack tree t no P. rewrite _parse_internal_ok in P.
  injection P as <-.
  assert (R : forall k, get_nth_child (tree_of data hack) t k
                        = Ok (nth_child_by_tag (tree_of data hack) t k)).
  { intros k. unfold get_nth_child.
    rewrite nth_child_loop_rule
      by (try apply (tree_of_nodes (List.length data)); lia).
    rewrite Nat.sub_0_r. unfold nth_child_by_tag.
    destruct (nth_error (filter (tag_is t) (tree_of data hack)) k)
      as [[b|tag len value]|] eqn:N; try reflexivity.
    apply nth_error_In, filter_In in N. destruct N as [N _].
    rewrite (tree_of_sequences (List.length data) data hack tag len value
               (Nat.le_refl _) N).
    reflexivity. }
  assert (A : forall k,
             (List.length (filter (tag_is t) (tree_of data hack)) <= k)%nat ->
             get_nth_child (tree_of data hack) t k = Ok None).
  { intros k L. rewrite R. unfold nth_child_by_tag.
    apply nth_error_None in L. rewrite L. reflexivity. }
  split; [apply R|]. split; [apply A|].
  intros L. apply A. rewrite L. apply Nat.leb_le. reflexivity.
Qed.

Lemma get_nth_child_by_tag_witness :
  _parse_internal [0xE9; 0x03; 0xC0; 0x01; 0x07; 0xC0; 0x01; 0x01;
                   0xE9; 0x03; 0xC0; 0x01; 0x09] false
  = Ok [ENode 0xE9 3 [ENode 0xC0 1 [EInt 0x07]]; ENode 0xC0 1 [EInt 0x01];
        ENode 0xE9 3 [ENode 0xC0 1 [EInt 0x09]]]
  /\ get_nth_child
       [ENode 0xE9 3 [ENode 0xC0 1 [EInt 0x07]]; ENode 0xC0 1 [EInt 0x01];
        ENode 0xE9 3 [ENode 0xC0 1 [EInt 0x09]]] 0xE9 1
     = Ok (Some [ENode 0xC0 1 [EInt 0x09]])
  /\ get_nth_child
       [ENode 0xE9 3 [ENode 0xC0 1 [EInt 0x07]]; ENode 0xC0 1 [EInt 0x01];
        ENode 0xE9 3 [ENode 0xC0 1 [EInt 0x09]]] 0xE9 5
     = Ok None.
Proof.
  split; [reflexivity|].
  destruct (get_nth_child_by_tag
              [0xE9; 0x03; 0xC0; 0x01; 0x07; 0xC0; 0x01; 0x01;
               0xE9; 0x03; 0xC0; 0x01; 0x09] false
              [ENode 0xE9 3 [ENode 0xC0 1 [EInt 0x07]];
               ENode 0xC0 1 [EInt 0x01];
               ENode 0xE9 3 [ENode 0xC0 1 [EInt 0x09]]] 0xE9 1 eq_refl)
    as (R & _ & F).
  split; [exact R|]. apply F. reflexivity.
Defined.

(** C6 as stated fails: in the tree parsed from E9 00 E9 03 C0 01 07
    the only child with tag 0xE9 whose payload is a nested sequence is
    the second item, so it is the 0-th such child; [get_nth_child]
    counts the first item, which holds nothing, as well: index 0 gives
    [None] and index 1 gives that child. *)
Lemma get_nth_child_counts_leaves :
  _parse_internal [0xE9; 0x00; 0xE9; 0x03; 0xC0; 0x01; 0x07] false
  = Ok [ENode 0xE9 0 []; ENode 0xE9 3 [ENode 0xC0 1 [EInt 0x07]]]
  /\ nth_child_as_stated
       [ENode 0xE9 0 []; ENode 0xE9 3 [ENode 0xC0 1 [EInt 0x07]]] 0xE9 0
     = Some [ENode 0xC0 1 [EInt 0x07]]
  /\ get_nth_child
       [ENode 0xE9 0 []; ENode 0xE9 3 [ENode 0xC0 1 [EInt 0x07]]] 0xE9 0
     = Ok None
  /\ nth_child_as_stated
       [ENode 0xE9 0 []; ENode 0xE9 3 [ENode 0xC0 1 [EInt 0x07]]] 0xE9 1
     = None
  /\ get_nth_child
       [ENode 0xE9 0 []; ENode 0xE9 3 [ENode 0xC0 1 [EInt 0x07]]] 0xE9 1
     = Ok (Some [ENode 0xC0 1 [EInt 0x07]]).
Proof. repeat split. Qed.

End NthChild.
